(** * ColorHistObjectClassifier: colour-histogram appearance model

    A shallow embedding of [ColorHistObjectClassifier.py] (the histogram
    builder [compute_object_histogram], the likelihood scorer
    [particle_weight] / [score_object], the model updater
    [update_object_histogram] and the constructor [__init__]) together
    with the properties of the specification that concern them.

    Numeric conventions.  NumPy floating point values are modelled by
    [Float.float]: a real number, one of the two infinities, or NaN.
    Arithmetic is exact on finite values (rounding, overflow and the sign
    of zero are abstracted), while the exceptional cases of IEEE 754 that
    the program can reach -- [0/0], [x/0], [inf - inf], [0 * inf], the
    square root of a negative number -- are kept.  Pixel counts are
    natural numbers, coordinates are rationals, pixel values are
    integers.  The one place where rounding decides what the program
    does, the bin a pixel value falls into, is modelled bit for bit:
    interval bounds are rounded to binary32 and the bin is computed in
    binary64, as OpenCV does. *)

From Stdlib Require Import List ZArith QArith Qround Reals Lra Lia Bool.
From Stdlib Require SpecFloat.
Import ListNotations.

Set Implicit Arguments.

(** Numerals are natural numbers unless a scope says otherwise. *)
#[local] Close Scope Q_scope.
#[local] Close Scope R_scope.
#[local] Close Scope Z_scope.
#[local] Open Scope nat_scope.

(** ** Python results: a value or a raised exception *)

Inductive exn : Type :=
| IndexError   (* list index out of range *)
| ValueError   (* NumPy: operands could not be broadcast together *)
| cv2_error    (* an assertion of OpenCV failed *)
| AttributeError. (* a method looked up on [None] *)

Inductive result (A : Type) : Type :=
| Ok (a : A)
| Raise (e : exn).

Arguments Ok {A} a.
Arguments Raise {A} e.

Definition rbind {A B} (m : result A) (k : A -> result B) : result B :=
  match m with
  | Ok a => k a
  | Raise e => Raise e
  end.

Declare Scope result_scope.
Delimit Scope result_scope with result.
Notation "x <- m ;; k" := (rbind m (fun x => k))
  (at level 61, m at next level, right associativity) : result_scope.

(** ** Floating point values *)

Module Float.

Inductive float : Type :=
| Fin (r : R)
| PInf
| NInf
| NaN.

Definition of_nat (n : nat) : float := Fin (INR n).
Definition of_bool (b : bool) : float := Fin (if b then 1 else 0).

(** The infinity carrying the sign of a non-zero real. *)
Definition inf_of_sign (x : R) : float :=
  if Rlt_dec 0 x then PInf else NInf.

Definition neg (a : float) : float :=
  match a with
  | Fin x => Fin (- x)
  | PInf => NInf
  | NInf => PInf
  | NaN => NaN
  end.

Definition add (a b : float) : float :=
  match a, b with
  | NaN, _ | _, NaN => NaN
  | Fin x, Fin y => Fin (x + y)
  | PInf, NInf | NInf, PInf => NaN
  | PInf, _ | _, PInf => PInf
  | NInf, _ | _, NInf => NInf
  end.

Definition sub (a b : float) : float := add a (neg b).

Definition mul (a b : float) : float :=
  match a, b with
  | NaN, _ | _, NaN => NaN
  | Fin x, Fin y => Fin (x * y)
  | Fin x, PInf | PInf, Fin x =>
      if Req_dec_T x 0 then NaN else inf_of_sign x
  | Fin x, NInf | NInf, Fin x =>
      if Req_dec_T x 0 then NaN else inf_of_sign (- x)
  | PInf, PInf | NInf, NInf => PInf
  | PInf, NInf | NInf, PInf => NInf
  end.

(** Division: [0/0] and [inf/inf] are NaN, [x/0] is an infinity (the
    zero divisor is taken positive, as a sum of counts is). *)
Definition div (a b : float) : float :=
  match a, b with
  | NaN, _ | _, NaN => NaN
  | Fin x, Fin y =>
      if Req_dec_T y 0
      then (if Req_dec_T x 0 then NaN else inf_of_sign x)
      else Fin (x / y)
  | Fin _, PInf | Fin _, NInf => Fin 0
  | PInf, Fin y => if Rle_dec 0 y then PInf else NInf
  | NInf, Fin y => if Rle_dec 0 y then NInf else PInf
  | PInf, PInf | PInf, NInf | NInf, PInf | NInf, NInf => NaN
  end.

Definition sqrt (a : float) : float :=
  match a with
  | Fin x => if Rlt_dec x 0 then NaN else Fin (R_sqrt.sqrt x)
  | PInf => PInf
  | NInf => NaN
  | NaN => NaN
  end.

Definition exp (a : float) : float :=
  match a with
  | Fin x => Fin (Rtrigo_def.exp x)
  | PInf => PInf
  | NInf => Fin 0
  | NaN => NaN
  end.

(** [x == 0]: false on NaN and on the infinities. *)
Definition eq_zero (a : float) : bool :=
  match a with
  | Fin x => if Req_dec_T x 0 then true else false
  | _ => false
  end.

(** A finite value inside the closed interval [lo, hi]. *)
Definition between (lo hi : R) (a : float) : Prop :=
  match a with
  | Fin x => (lo <= x <= hi)%R
  | _ => False
  end.

End Float.

Import Float.

(** ** Python built-ins *)

(** [int(q)] truncates towards zero. *)
Definition py_int (q : Q) : Z := Z.quot (Qnum q) (Zpos (Qden q)).

(** [l[i]]: raises [IndexError] out of range (indices here are literals,
    never negative). *)
Definition getitem {A} (l : list A) (i : nat) : result A :=
  match nth_error l i with
  | Some a => Ok a
  | None => Raise IndexError
  end.

(** The bound of a slice once negative indices are wrapped and the
    result clamped to [0, n]. *)
Definition slice_index (n : nat) (i : Z) : nat :=
  if (i <? 0)%Z
  then Z.to_nat (Z.max 0 (i + Z.of_nat n))
  else Nat.min (Z.to_nat i) n.

(** [l[i:j]] *)
Definition slice {A} (l : list A) (i j : Z) : list A :=
  let a := slice_index (length l) i in
  let b := slice_index (length l) j in
  firstn (b - a) (skipn a l).

(** [l[:j]] and [l[i:]] for literal, non-negative bounds. *)
Definition slice_to {A} (l : list A) (j : nat) : list A := firstn j l.
Definition slice_from {A} (l : list A) (i : nat) : list A := skipn i l.

Fixpoint map2 {A B C} (f : A -> B -> C) (l : list A) (m : list B) : list C :=
  match l, m with
  | a :: l', b :: m' => f a b :: map2 f l' m'
  | _, _ => []
  end.

(** ** Images *)

(** A pixel is the list of its channel values (8-bit, 0..255); an image
    is a list of rows, a single-channel plane likewise. *)
Definition pixel : Type := list Z.
Definition image : Type := list (list pixel).
Definition plane : Type := list (list Z).

(** [img.shape[0]] and [img.shape[1]]. *)
Definition shape0 (img : image) : nat := length img.
Definition shape1 (img : image) : nat :=
  match img with
  | [] => 0
  | row :: _ => length row
  end.

(** [img[t:b, l:r]] *)
Definition crop (img : image) (t b l r : Z) : image :=
  map (fun row => slice row l r) (slice img t b).

(** ** The bounding box of [Utils]

    Only the accessors of the edges are modelled; [centered_on] and
    [centroid] are parameters of the scorer below. *)
Record BB : Type := mkBB {
  top : Q;
  bottom : Q;
  left : Q;
  right : Q
}.

(** ** NumPy on one-dimensional arrays *)

Module np.

Definition zeros (n : nat) : list float := repeat (Fin 0) n.

(** [np.sum(a)] *)
Definition sum (a : list float) : float := fold_right add (Fin 0) a.

Definition concatenate (a b : list float) : list float := a ++ b.

(** [a / s], [s * a] and [f(a)] for a scalar [s]. *)
Definition divide (a : list float) (s : float) : list float :=
  map (fun x => div x s) a.
Definition scale (s : float) (a : list float) : list float :=
  map (mul s) a.

(** An element-wise operation on two one-dimensional arrays, with
    NumPy's broadcasting of a length-one operand. *)
Definition broadcast (f : float -> float -> float) (a b : list float)
  : result (list float) :=
  if length a =? length b then Ok (map2 f a b)
  else if length a =? 1 then Ok (map (f (nth 0 a NaN)) b)
  else if length b =? 1 then Ok (map (fun x => f x (nth 0 b NaN)) a)
  else Raise ValueError.

End np.

(** ** Binary floating point, bit for bit

    The arithmetic of IEEE 754 on [SpecFloat.spec_float], used where the
    program's behaviour turns on rounding: [binary32] for the interval
    bounds handed to OpenCV, [binary64] for its arithmetic on them. *)

Module ieee.

Import SpecFloat.

Definition mul : spec_float -> spec_float -> spec_float := SFmul 53 1024.
Definition add : spec_float -> spec_float -> spec_float := SFadd 53 1024.
Definition sub : spec_float -> spec_float -> spec_float := SFsub 53 1024.
Definition div : spec_float -> spec_float -> spec_float := SFdiv 53 1024.
Definition opp : spec_float -> spec_float := SFopp.

(** An integer as a double. *)
Definition of_int (z : Z) : spec_float := binary_normalize 53 1024 z 0 false.

(** A rational rounded to the nearest number of a format. *)
Definition of_Q (prec emax : Z) (q : Q) : spec_float :=
  match Qnum q with
  | Z0 => S754_zero false
  | Zpos n =>
      SFdiv prec emax (S754_finite false n 0) (S754_finite false (Qden q) 0)
  | Zneg n =>
      SFdiv prec emax (S754_finite true n 0) (S754_finite false (Qden q) 0)
  end.

Definition round_to (prec emax : Z) (x : spec_float) : spec_float :=
  match x with
  | S754_finite s m e => binary_round prec emax s m e
  | _ => x
  end.

(** A Python number, a double, converted to a C [float]. *)
Definition to_float32 (q : Q) : spec_float :=
  round_to 24 128 (of_Q 53 1024 q).

(** [cvFloor]; nothing for an infinity or NaN. *)
Definition floor (x : spec_float) : option Z :=
  match x with
  | S754_zero _ => Some 0%Z
  | S754_finite s m e =>
      let n := if s then Zneg m else Zpos m in
      Some (match e with
            | Zneg k => Z.div n (Z.pow_pos 2 k)
            | _ => Z.mul n (Z.pow 2 e)
            end)
  | _ => None
  end.

End ieee.

(** ** The OpenCV functions the classifier calls

    Modelled on OpenCV's behaviour for 8-bit images: [split],
    [threshold] with [THRESH_BINARY], [bitwise_and], [bitwise_xor] and
    [calcHist] for one image with uniform ranges, as its Python binding
    exposes them. *)

Module cv2.

Definition empty (m : image) : bool :=
  match m with
  | [] => true
  | [] :: _ => true
  | _ => false
  end.

Definition channels_of (m : image) : nat :=
  match m with
  | (p :: _) :: _ => length p
  | _ => 0
  end.

(** One plane per channel; nothing at all for an empty matrix. *)
Definition split (m : image) : list plane :=
  if empty m then []
  else map (fun k => map (map (fun p : pixel => nth k p 0%Z)) m)
           (seq 0 (channels_of m)).

(** [threshold(src, thresh, maxval, THRESH_BINARY)[1]] *)
Definition threshold (src : plane) (thresh maxval : Z) : plane :=
  map (map (fun v => if (thresh <? v)%Z then maxval else 0%Z)) src.

Definition bitwise_and (a b : plane) : plane := map2 (map2 Z.land) a b.
Definition bitwise_xor (a b : plane) : plane := map2 (map2 Z.lxor) a b.

(** The flat list [lo0, hi0, lo1, hi1, ...] as one pair per dimension. *)
Fixpoint ranges_of (l : list Q) : list (Q * Q) :=
  match l with
  | lo :: hi :: l' => (lo, hi) :: ranges_of l'
  | _ => []
  end.

(** The bounds of an interval as the [float] values OpenCV receives. *)
Definition low (r : Q * Q) : SpecFloat.spec_float := ieee.to_float32 (fst r).
Definition high (r : Q * Q) : SpecFloat.spec_float := ieee.to_float32 (snd r).

(** OpenCV's assertion [ranges[i][0] < ranges[i][1]]. *)
Definition range_ok (r : Q * Q) : bool := SpecFloat.SFltb (low r) (high r).

(** The bin of an 8-bit value in a uniform histogram of [sz] bins over
    an interval: with the doubles [t = sz / (high - low)] and
    [b = - t * low], the bin is [floor (v * t + b)] when that lies in
    [0, sz); the value is not counted otherwise. *)
Definition bin_index (v : Z) (sz : nat) (r : Q * Q) : option nat :=
  let t := ieee.div (ieee.of_int (Z.of_nat sz)) (ieee.sub (high r) (low r)) in
  let b := ieee.mul (ieee.opp t) (low r) in
  match ieee.floor (ieee.add (ieee.mul (ieee.of_int v) t) b) with
  | Some idx =>
      if ((0 <=? idx) && (idx <? Z.of_nat sz))%Z
      then Some (Z.to_nat idx)
      else None
  | None => None
  end.

(** The row-major position of a pixel in a dense histogram. *)
Fixpoint flat_bin (p : pixel) (chans sizes : list nat)
         (ranges : list (Q * Q)) (acc : nat) : option nat :=
  match chans, sizes, ranges with
  | c :: cs, sz :: szs, r :: rs =>
      match bin_index (nth c p 0%Z) sz r with
      | Some i => flat_bin p cs szs rs (acc * sz + i)
      | None => None
      end
  | _, _, _ => Some acc
  end.

Fixpoint incr (k : nat) (h : list nat) : list nat :=
  match h, k with
  | [], _ => []
  | c :: h', O => S c :: h'
  | c :: h', S k' => c :: incr k' h'
  end.

(** One pixel's contribution: none where the mask is zero or a value
    falls outside its range. *)
Definition count_pixel (chans sizes : list nat) (ranges : list (Q * Q))
           (h : list nat) (pm : pixel * Z) : list nat :=
  if (snd pm =? 0)%Z then h
  else match flat_bin (fst pm) chans sizes ranges 0 with
       | Some k => incr k h
       | None => h
       end.

(** [calcHist([img], channels, mask, histSize, ranges)] for one 8-bit
    image, its counts in row-major order.  The assertions of OpenCV on
    its arguments raise [cv2_error]; a histogram with a dimension of no
    bins has no data, and the Python binding returns [None] for it. *)
Definition calcHist (img : image) (channels : list nat) (mask : plane)
           (histSize : list nat) (ranges : list Q)
  : result (option (list nat)) :=
  let dims := length histSize in
  let rsz := length ranges in
  let csz := length channels in
  if negb (0 <? dims) then Raise cv2_error
  else if negb ((rsz =? 2 * dims) || (rsz =? 0)) then Raise cv2_error
  else if negb ((csz =? dims)
                || ((csz =? 0) && (channels_of img =? 1) && (dims =? 1)))
  then Raise cv2_error
  else
    let chans := if csz =? 0 then [0] else channels in
    let rs := if rsz =? 0 then repeat (0%Q, 256%Q) dims
              else ranges_of ranges in
    if negb (forallb (fun c => c <? channels_of img) chans)
    then Raise cv2_error
    else if negb (forallb range_ok rs) then Raise cv2_error
    else if fold_right Nat.mul 1 histSize =? 0 then Ok None
    else Ok (Some (fold_left (count_pixel chans histSize rs)
                             (combine (concat img) (concat mask))
                             (repeat 0 (fold_right Nat.mul 1 histSize)))).

(** [hist.flatten()]: an [AttributeError] on [None]. *)
Definition flatten (hist : option (list nat)) : result (list nat) :=
  match hist with
  | Some h => Ok h
  | None => Raise AttributeError
  end.

End cv2.

(** ** The histogram builder *)

Local Open Scope result_scope.

(** [compute_object_histogram(self, img, objectBB, channels, mask,
    num_bins, intervals)].  The method does not read [self]; the
    parameter [mask] is received and never used. *)
Definition compute_object_histogram (img : image) (objectBB : BB)
           (channels : list nat) (mask : option plane)
           (num_bins : list nat) (intervals : list Q)
  : result (list float) :=
  b0 <- getitem num_bins 0 ;;
  b1 <- getitem num_bins 1 ;;
  b2 <- getitem num_bins 2 ;;
  let obj_hist := np.zeros (b0 * b1 + b2) in
  let obj_image := crop img (py_int (top objectBB)) (py_int (bottom objectBB))
                        (py_int (left objectBB)) (py_int (right objectBB)) in
  let splitted_img := cv2.split obj_image in
  if length splitted_img =? 3 then
    let maskH := cv2.threshold (nth 0 splitted_img [])
                               (py_int ((1 # 10) * 255)) 255 in
    let maskS := cv2.threshold (nth 1 splitted_img [])
                               (py_int ((2 # 10) * 255)) 255 in
    let maskHS := cv2.bitwise_and maskH maskS in
    let white_mask := map (map (fun _ : Z => (1 * 255)%Z)) maskH in
    let maskV := cv2.bitwise_xor maskHS white_mask in
    hs_hist <- cv2.calcHist obj_image (slice_to channels 2) maskHS
                            (slice_to num_bins 2) (slice_to intervals 4) ;;
    v_hist <- cv2.calcHist obj_image (slice_to (slice_from channels 2) 1) maskV
                           (slice_to (slice_from num_bins 2) 1)
                           (slice_from intervals 4) ;;
    hs_flat <- cv2.flatten hs_hist ;;
    v_flat <- cv2.flatten v_hist ;;
    let obj_hist := np.concatenate (map of_nat hs_flat) (map of_nat v_flat) in
    Ok (np.divide obj_hist (np.sum obj_hist))
  else Ok obj_hist.

(** ** The classifier and its methods *)

(** [self._color_hist_params], the list
    [[hist_channels, hist_mask, hist_num_bins, hist_intervals]]. *)
Record color_hist_params : Type := mkParams {
  params_channels : list nat;     (* [0] *)
  params_mask : option plane;     (* [1] *)
  params_num_bins : list nat;     (* [2] *)
  params_intervals : list Q       (* [3] *)
}.

Record classifier : Type := mkClassifier {
  _bb : BB;
  _obj_img : image;
  _color_hist_params : color_hist_params;
  _color_hist : list float
}.

(** Methods run in a state-and-exception monad over the object. *)
Definition M (A : Type) : Type := classifier -> result A * classifier.

Definition ret {A} (a : A) : M A := fun self => (Ok a, self).

Definition bind {A B} (m : M A) (k : A -> M B) : M B :=
  fun self =>
    match m self with
    | (Ok a, self') => k a self'
    | (Raise e, self') => (Raise e, self')
    end.

(** Reading an attribute, running a computation that does not touch the
    object, and the one assignment to an attribute the class has outside
    its constructor. *)
Definition getattr {A} (f : classifier -> A) : M A :=
  fun self => (Ok (f self), self).
Definition lift {A} (r : result A) : M A := fun self => (r, self).
Definition set_color_hist (h : list float) : M unit :=
  fun self => (Ok tt, mkClassifier (_bb self) (_obj_img self)
                                   (_color_hist_params self) h).

Declare Scope method_scope.
Delimit Scope method_scope with method.
Notation "x <- m ;; k" := (bind m (fun x => k))
  (at level 61, m at next level, right associativity) : method_scope.

Fixpoint for_each {A B} (l : list A) (body : A -> M B) : M (list B) :=
  match l with
  | [] => ret []
  | a :: l' =>
      (b <- body a ;;
       bs <- for_each l' body ;;
       ret (b :: bs))%method
  end.

Fixpoint traverse {A B} (f : A -> result B) (l : list A) : result (list B) :=
  match l with
  | [] => Ok []
  | a :: l' => b <- f a ;; bs <- traverse f l' ;; Ok (b :: bs)
  end.

(** [np.power(a, n)] for a literal exponent. *)
Fixpoint power (a : float) (n : nat) : float :=
  match n with
  | O => Fin 1
  | S n' => mul a (power a n')
  end.

(** [__init__(self, hsv_img, bb, hist_channels, hist_mask, hist_num_bins,
    hist_intervals)] *)
Definition __init__ (hsv_img : image) (bb : BB) (hist_channels : list nat)
           (hist_mask : option plane) (hist_num_bins : list nat)
           (hist_intervals : list Q) : result classifier :=
  let obj_img := crop hsv_img (py_int (top bb)) (py_int (bottom bb))
                      (py_int (left bb)) (py_int (right bb)) in
  let params := mkParams hist_channels hist_mask hist_num_bins
                         hist_intervals in
  color_hist <- compute_object_histogram hsv_img bb (params_channels params)
                  (params_mask params) (params_num_bins params)
                  (params_intervals params) ;;
  Ok (mkClassifier bb obj_img params color_hist).

(** A particle state; only its first two components, the position
    [(x, y)], are ever read. *)
Definition particle : Type := (Q * Q)%type.

(** Lines 115-123: the distance of every candidate histogram (a row of
    [all_particle_hists], which is [width] wide) to the reference. *)
Definition dist (color_hist : list float)
           (all_particle_hists : list (list float)) (width : nat)
  : result (list float) :=
  let norm_color_hist := np.divide color_hist (np.sum color_hist) in
  let sum_hist := map np.sum all_particle_hists in
  let sum_hist := map (fun s => if eq_zero s then Fin 1 else s) sum_hist in
  let norm_particle_hist := map2 np.divide all_particle_hists sum_hist in
  if negb ((length norm_color_hist =? width)
           || (length norm_color_hist =? 1) || (width =? 1))
  then Raise ValueError
  else
    diff <- traverse (fun row => np.broadcast sub (map sqrt norm_color_hist)
                                              (map sqrt row))
                     norm_particle_hist ;;
    Ok (map (fun row =>
               mul (div (Fin 1) (sqrt (Fin 2)))
                   (sqrt (np.sum (map (fun x => power x 2) row))))
            diff).

(** Lines 125-126. *)
Definition sigma : float := Fin (1 / 10).

Definition all_weights (dist : list float) : list float :=
  map (fun d => exp (div (neg (power d 2)) (mul (Fin 2) (power sigma 2))))
      dist.

(** Lines 128-132. *)
Definition valid_mask (particles : list particle) (hsv_img : image)
  : list bool :=
  let positive_x := map (fun p => Qle_bool 0 (fst p)) particles in
  let small_x :=
    map (fun p => negb (Qle_bool (inject_Z (Z.of_nat (shape1 hsv_img)))
                                 (fst p))) particles in
  let positive_y := map (fun p => Qle_bool 0 (snd p)) particles in
  let small_y :=
    map (fun p => negb (Qle_bool (inject_Z (Z.of_nat (shape0 hsv_img)))
                                 (snd p))) particles in
  map2 andb (map2 andb (map2 andb positive_x small_x) positive_y) small_y.

Section Scorer.

(** [Utils]: the box re-centred on a point, and the centre of a box as
    a batch of one particle. *)
Variable centered_on : BB -> Q -> Q -> BB.
Variable centroid : BB -> list particle.

Local Open Scope method_scope.

(** [particle_weight(self, particles, hsv_img, mask=None)] *)
Definition particle_weight (particles : list particle) (hsv_img : image)
           (mask : option plane) : M (list (list float)) :=
  params <- getattr _color_hist_params ;;
  let num_bins := params_num_bins params in
  b0 <- lift (getitem num_bins 0) ;;
  b1 <- lift (getitem num_bins 1) ;;
  b2 <- lift (getitem num_bins 2) ;;
  let width := b0 * b1 + b2 in
  all_particle_hists <-
    for_each particles (fun state =>
      bb <- getattr _bb ;;
      let particleBB := centered_on bb (fst state) (snd state) in
      params <- getattr _color_hist_params ;;
      lift (compute_object_histogram hsv_img particleBB
              (params_channels params) mask (params_num_bins params)
              (params_intervals params))) ;;
  color_hist <- getattr _color_hist ;;
  d <- lift (dist color_hist all_particle_hists width) ;;
  let weights := all_weights d in
  let weights := map2 mul weights (map of_bool (valid_mask particles hsv_img)) in
  ret (map (fun w => [w]) weights).

(** [score_object(self, hsv_img, bb, mask=None)] *)
Definition score_object (hsv_img : image) (bb : BB) (mask : option plane)
  : M (list (list float)) :=
  particle_weight (centroid bb) hsv_img mask.

End Scorer.

(** [update_object_histogram(self, new_histogram, update_factor=0.1)] *)
Definition update_object_histogram (new_histogram : list float)
           (update_factor : float) : M unit :=
  (color_hist <- getattr _color_hist ;;
   h <- lift (np.broadcast add
                (np.scale (sub (Fin 1) update_factor) color_hist)
                (np.scale update_factor new_histogram)) ;;
   set_color_hist h)%method.

Definition default_update_factor : float := Fin (1 / 10).

(** ** The specification's formulas, over the reals *)

Fixpoint Rsum (l : list R) : R :=
  match l with
  | [] => 0
  | x :: l' => x + Rsum l'
  end.

(** A histogram divided by its own sum; a candidate whose sum is zero is
    divided by one instead. *)
Definition renormalized (h : list R) : list R :=
  map (fun x => x / Rsum h)%R h.

Definition renormalized_candidate (h : list R) : list R :=
  map (fun x => x / (if Req_dec_T (Rsum h) 0 then 1 else Rsum h))%R h.

(** [d = (1/sqrt 2) * sqrt (sum over bins of (sqrt ref - sqrt cand)^2)] *)
Definition bhattacharyya_distance (ref cand : list R) : R :=
  (1 / R_sqrt.sqrt 2
   * R_sqrt.sqrt
       (Rsum (map2 (fun r c => (R_sqrt.sqrt r - R_sqrt.sqrt c) ^ 2) ref cand)))%R.

(** [w = exp (- d^2 / (2 sigma^2))] with [sigma = 0.1] *)
Definition gaussian_weight (d : R) : R :=
  Rtrigo_def.exp (- d ^ 2 / (2 * (1 / 10) ^ 2))%R.

(** The histogram builder as the specification words it: an externally
    supplied mask, cropped like the image, stands in for the achromatic
    mask; the chromatic part keeps the derived chromatic mask. *)
Definition spec_compute_object_histogram (img : image) (objectBB : BB)
           (channels : list nat) (mask : option plane)
           (num_bins : list nat) (intervals : list Q)
  : result (list float) :=
  b0 <- getitem num_bins 0 ;;
  b1 <- getitem num_bins 1 ;;
  b2 <- getitem num_bins 2 ;;
  let t := py_int (top objectBB) in
  let b := py_int (bottom objectBB) in
  let l := py_int (left objectBB) in
  let r := py_int (right objectBB) in
  let obj_image := crop img t b l r in
  let splitted_img := cv2.split obj_image in
  if length splitted_img =? 3 then
    let maskH := cv2.threshold (nth 0 splitted_img []) 25 255 in
    let maskS := cv2.threshold (nth 1 splitted_img []) 51 255 in
    let chromatic := cv2.bitwise_and maskH maskS in
    let achromatic :=
      match mask with
      | Some m => map (fun row => slice row l r) (slice m t b)
      | None => cv2.bitwise_xor chromatic (map (map (fun _ : Z => 255%Z)) maskH)
      end in
    hs_hist <- cv2.calcHist obj_image (slice_to channels 2) chromatic
                            (slice_to num_bins 2) (slice_to intervals 4) ;;
    v_hist <- cv2.calcHist obj_image (slice_to (slice_from channels 2) 1)
                           achromatic (slice_to (slice_from num_bins 2) 1)
                           (slice_from intervals 4) ;;
    hs_flat <- cv2.flatten hs_hist ;;
    v_flat <- cv2.flatten v_hist ;;
    let obj_hist := np.concatenate (map of_nat hs_flat) (map of_nat v_flat) in
    Ok (np.divide obj_hist (np.sum obj_hist))
  else Ok (np.zeros (b0 * b1 + b2)).

(** ** Sample inputs *)

(** Hue, saturation and value; two bins per dimension; OpenCV's usual
    intervals for an HSV image. *)
Definition hsv_channels : list nat := [0; 1; 2].
Definition two_bins : list nat := [2; 2; 2].
Definition hsv_intervals : list Q := [0; 180; 0; 256; 0; 256]%Q.

(** The box covering the pixel at the origin, and a box of no area. *)
Definition pixel_box : BB := mkBB 0 1 0 1.
Definition empty_box : BB := mkBB 0 0 0 0.

(** One-pixel images: a saturated pixel whose hue lies beyond 180, a
    grey pixel, and a single-channel (greyscale) pixel. *)
Definition hue_200_img : image := [[ [200; 100; 100]%Z ]].
Definition grey_img : image := [[ [0; 0; 100]%Z ]].
Definition greyscale_img : image := [[ [100]%Z ]].

(** A well-formed parameter set: three channels of a three-channel
    image, three positive bin counts, and three intervals whose lower
    bound is below the upper one once both are rounded to [float]. *)
Definition well_formed_params (channels num_bins : list nat)
           (intervals : list Q) : Prop :=
  length num_bins = 3
  /\ Forall (fun b => 0 < b) num_bins
  /\ length channels = 3
  /\ Forall (fun c => c < 3) channels
  /\ length intervals = 6
  /\ forallb cv2.range_ok (cv2.ranges_of intervals) = true.

(** A method that leaves the object as it found it, whatever it
    returns or raises. *)
Definition read_only {A} (m : M A) : Prop :=
  forall self : classifier, snd (m self) = self.

(** One particle's entry of [valid_mask]. *)
Definition in_bounds (p : particle) (hsv_img : image) : bool :=
  Qle_bool 0 (fst p)
  && negb (Qle_bool (inject_Z (Z.of_nat (shape1 hsv_img))) (fst p))
  && Qle_bool 0 (snd p)
  && negb (Qle_bool (inject_Z (Z.of_nat (shape0 hsv_img))) (snd p)).

(** Evaluates the builder on a concrete input up to the normalisation of
    the counted bins. *)
Ltac run_builder := cbv - [of_nat np.divide np.sum].

(** Checks a decidable property on every pixel of a concrete image or
    list of pixels, one pixel at a time. *)
Ltac check_pixels :=
  match goal with
  | |- Forall ?P ?l => let l' := eval vm_compute in l in change (Forall P l')
  end;
  repeat first [ apply Forall_nil | apply Forall_cons
               | (vm_compute; reflexivity) ].

(** [color_hist_params], the read-only property of the class. *)
Definition color_hist_params_property : M color_hist_params :=
  getattr _color_hist_params.

(** A probability mass function: non-negative bins that sum to 1. *)
Definition pmf (h : list R) : Prop :=
  Forall (fun x => 0 <= x)%R h /\ Rsum h = 1%R.

(** A run of model updates, each a histogram and its update factor. *)
Fixpoint run_updates (updates : list (list float * float)) : M unit :=
  match updates with
  | [] => ret tt
  | (new_histogram, update_factor) :: rest =>
      bind (update_object_histogram new_histogram update_factor)
           (fun _ => run_updates rest)
  end.

(** A row of three pixels: a grey one, a saturated red one, a white
    one. *)
Definition grey_row_img : image :=
  [[ [0; 0; 100]%Z; [100; 200; 50]%Z; [0; 0; 255]%Z ]].

(** An image all of whose rows have [w] pixels. *)
Definition rectangular (img : image) (w : nat) : Prop :=
  Forall (fun row => length row = w) img.

(** The box with the given integer edges. *)
Definition int_box (t b l r : Z) : BB :=
  mkBB (inject_Z t) (inject_Z b) (inject_Z l) (inject_Z r).

(** The chromatic test of line 79-83: hue above [int(0.1 * 255)] and
    saturation above [int(0.2 * 255)]. *)
Definition chromatic (p : pixel) : bool :=
  ((25 <? nth 0 p 0) && (51 <? nth 1 p 0))%Z.

(** The pixel falls into a bin of the histogram it belongs to: of the
    chromatic one if it passes the chromatic test, of the achromatic one
    otherwise. *)
Definition has_bin (channels num_bins : list nat) (intervals : list Q)
           (p : pixel) : bool :=
  if chromatic p
  then match cv2.flat_bin p (slice_to channels 2) (slice_to num_bins 2)
                          (cv2.ranges_of (slice_to intervals 4)) 0 with
       | Some _ => true
       | None => false
       end
  else match cv2.flat_bin p (slice_to (slice_from channels 2) 1)
                          (slice_to (slice_from num_bins 2) 1)
                          (cv2.ranges_of (slice_from intervals 4)) 0 with
       | Some _ => true
       | None => false
       end.

(** * Properties *)

(** ** OpenCV's histogram on sample values *)

(** The interval bounds reach OpenCV as [float]s and the bin is computed
    in doubles.  With 26 bins over [0, 180) the quotient [26 / 180] is
    rounded down, so the hue 90 falls into bin 12, and the hue 180,
    outside the interval, is counted in the last bin. *)
Lemma bin_index_hue_90 : cv2.bin_index 90 26 (0, 180)%Q = Some 12.
Proof. vm_compute. reflexivity. Qed.

Lemma bin_index_hue_180 : cv2.bin_index 180 26 (0, 180)%Q = Some 25.
Proof. vm_compute. reflexivity. Qed.

(** An upper bound that rounds down to a pixel value excludes it. *)
Lemma bin_index_rounded_bound :
  cv2.bin_index 100 1 (0, 1000000001 # 10000000)%Q = None.
Proof. vm_compute. reflexivity. Qed.

(** Bounds that differ as Python numbers and coincide as [float]s fail
    OpenCV's assertion. *)
Lemma range_ok_in_float : cv2.range_ok (16777216, 16777217)%Q = false.
Proof. vm_compute. reflexivity. Qed.

(** A bin count of zero leaves [calcHist] without data: it returns
    [None], and the builder raises on [flatten]. *)
Lemma builder_zero_bin_count :
  compute_object_histogram grey_img pixel_box hsv_channels None [0; 2; 2]
                           hsv_intervals
  = Raise AttributeError.
Proof. vm_compute. reflexivity. Qed.

(** An empty list of channels fails OpenCV's assertions on a
    three-channel image. *)
Lemma builder_no_channels :
  compute_object_histogram grey_img pixel_box [] None two_bins hsv_intervals
  = Raise cv2_error.
Proof. vm_compute. reflexivity. Qed.

(** ** Arithmetic of [Float] *)

Lemma div_zero_zero : div (Fin 0) (Fin 0) = NaN.
Proof.
  unfold div.
  destruct (Req_dec_T 0 0) as [_ | H]; [reflexivity | contradiction H; reflexivity].
Qed.

Lemma div_fin (x y : R) : y <> 0%R -> div (Fin x) (Fin y) = Fin (x / y).
Proof.
  intros Hy. unfold div.
  destruct (Req_dec_T y 0) as [E | _]; [contradiction | reflexivity].
Qed.

Lemma sqrt_fin (x : R) : (0 <= x)%R -> sqrt (Fin x) = Fin (R_sqrt.sqrt x).
Proof.
  intros Hx. unfold sqrt.
  destruct (Rlt_dec x 0) as [H | _]; [lra | reflexivity].
Qed.

Lemma eq_zero_fin_true (x : R) : x = 0%R -> eq_zero (Fin x) = true.
Proof.
  intros ->. unfold eq_zero.
  destruct (Req_dec_T 0 0) as [_ | H]; [reflexivity | contradiction H; reflexivity].
Qed.

Lemma eq_zero_fin_false (x : R) : x <> 0%R -> eq_zero (Fin x) = false.
Proof.
  intros Hx. unfold eq_zero.
  destruct (Req_dec_T x 0) as [E | _]; [contradiction | reflexivity].
Qed.

(** ** Sums of arrays *)

Lemma sum_fin (l : list R) : np.sum (map Fin l) = Fin (Rsum l).
Proof.
  unfold np.sum.
  induction l as [| x l IH]; simpl; [reflexivity |].
  rewrite IH. reflexivity.
Qed.

Lemma Rsum_nonneg (l : list R) : Forall (fun x => (0 <= x)%R) l -> (0 <= Rsum l)%R.
Proof.
  induction 1 as [| x l Hx _ IH]; simpl; lra.
Qed.

Lemma Rsum_INR (l : list nat) : Rsum (map INR l) = INR (list_sum l).
Proof.
  induction l as [| n l IH]; simpl; [reflexivity |].
  rewrite IH, plus_INR. reflexivity.
Qed.

Lemma Rsum_div (l : list R) (s : R) :
  Rsum (map (fun x => x / s)%R l) = (Rsum l / s)%R.
Proof.
  induction l as [| x l IH]; simpl; [lra |].
  rewrite IH. lra.
Qed.

Lemma sum_of_nat (l : list nat) :
  np.sum (map of_nat l) = Fin (INR (list_sum l)).
Proof.
  unfold of_nat. rewrite <- Rsum_INR, <- sum_fin, map_map. reflexivity.
Qed.

(** Normalising a vector of counts: NaN everywhere when nothing was
    counted, the relative frequencies otherwise. *)
Lemma divide_counts_zero (l : list nat) :
  list_sum l = 0 ->
  np.divide (map of_nat l) (np.sum (map of_nat l)) = repeat NaN (length l).
Proof.
  intros H0. rewrite sum_of_nat, H0. simpl INR. unfold np.divide.
  induction l as [| n l IH]; [reflexivity |].
  simpl in H0. assert (n = 0) by lia. assert (list_sum l = 0) by lia. subst n.
  cbn [map length repeat]. rewrite IH by assumption.
  unfold of_nat at 1. simpl INR. rewrite div_zero_zero. reflexivity.
Qed.

Lemma divide_counts_pos (l : list nat) :
  0 < list_sum l ->
  np.divide (map of_nat l) (np.sum (map of_nat l))
  = map Fin (map (fun n => INR n / INR (list_sum l))%R l).
Proof.
  intros Hpos. rewrite sum_of_nat.
  assert (Hs : INR (list_sum l) <> 0%R) by (apply not_0_INR; lia).
  unfold np.divide. rewrite !map_map. apply map_ext. intros n.
  unfold of_nat. apply div_fin. exact Hs.
Qed.

(** ** The histogram builder, case by case *)

Section Builder.

Variables (img : image) (objectBB : BB) (channels : list nat)
          (mask : option plane) (intervals : list Q).
Variables (b0 b1 b2 : nat) (more_bins : list nat).

Let num_bins := b0 :: b1 :: b2 :: more_bins.
Let obj_image :=
  crop img (py_int (top objectBB)) (py_int (bottom objectBB))
       (py_int (left objectBB)) (py_int (right objectBB)).
Let maskHS :=
  cv2.bitwise_and (cv2.threshold (nth 0 (cv2.split obj_image) []) 25 255)
                  (cv2.threshold (nth 1 (cv2.split obj_image) []) 51 255).
Let maskV :=
  cv2.bitwise_xor maskHS
    (map (map (fun _ : Z => 255%Z))
         (cv2.threshold (nth 0 (cv2.split obj_image) []) 25 255)).

Lemma builder_not_three_channels :
  length (cv2.split obj_image) <> 3 ->
  compute_object_histogram img objectBB channels mask num_bins intervals
  = Ok (np.zeros (b0 * b1 + b2)).
Proof.
  intros H. unfold compute_object_histogram. simpl.
  fold obj_image.
  destruct (Nat.eqb_spec (length (cv2.split obj_image)) 3) as [E | _];
    [contradiction | reflexivity].
Qed.

Lemma builder_three_channels (hs v : list nat) :
  length (cv2.split obj_image) = 3 ->
  cv2.calcHist obj_image (slice_to channels 2) maskHS [b0; b1]
               (slice_to intervals 4) = Ok (Some hs) ->
  cv2.calcHist obj_image (slice_to (slice_from channels 2) 1) maskV [b2]
               (slice_from intervals 4) = Ok (Some v) ->
  compute_object_histogram img objectBB channels mask num_bins intervals
  = Ok (np.divide (map of_nat (hs ++ v)) (np.sum (map of_nat (hs ++ v)))).
Proof.
  intros H3 Hhs Hv. unfold compute_object_histogram. simpl.
  fold obj_image. rewrite H3. simpl.
  change (py_int ((1 # 10) * 255)) with 25%Z.
  change (py_int ((2 # 10) * 255)) with 51%Z.
  change (1 * 255)%Z with 255%Z.
  fold maskHS. fold maskV.
  unfold slice_to, slice_from in *. simpl firstn. simpl skipn.
  simpl in Hhs, Hv. rewrite Hhs. simpl. rewrite Hv. simpl.
  unfold np.concatenate. rewrite <- map_app. reflexivity.
Qed.

End Builder.

(** ** The builder on a region that counts no pixel *)

(** C1 (the code departs from it).  On the one-pixel image whose hue,
    200, lies outside the chromatic interval [0, 180), the crop splits
    into three channels, no bin counts the pixel, and the builder divides
    the all-zero counts by their sum: every bin is NaN, not zero. *)
Theorem compute_object_histogram_zero_mass_nan :
  compute_object_histogram hue_200_img pixel_box hsv_channels None two_bins
                           hsv_intervals
  = Ok (repeat NaN 6)
  /\ compute_object_histogram hue_200_img pixel_box hsv_channels None
                              two_bins hsv_intervals
     <> Ok (np.zeros (2 * 2 + 2)).
Proof.
  assert (H : compute_object_histogram hue_200_img pixel_box hsv_channels
                None two_bins hsv_intervals = Ok (repeat NaN 6)).
  { run_builder.
    exact (f_equal Ok (divide_counts_zero [0; 0; 0; 0; 0; 0] eq_refl)). }
  split; [exact H |].
  rewrite H. simpl. discriminate.
Qed.

(** ** The builder on a crop that does not have three channels *)

(** C10.  When the crop does not split into exactly three channels the
    builder computes no histogram and returns, without raising, the
    all-zero vector of length [num_bins[0] * num_bins[1] + num_bins[2]]. *)
Theorem compute_object_histogram_not_three_channels :
  forall (img : image) (objectBB : BB) (channels : list nat)
         (mask : option plane) (num_bins : list nat) (intervals : list Q)
         (b0 b1 b2 : nat),
    nth_error num_bins 0 = Some b0 ->
    nth_error num_bins 1 = Some b1 ->
    nth_error num_bins 2 = Some b2 ->
    length (cv2.split (crop img (py_int (top objectBB))
                            (py_int (bottom objectBB))
                            (py_int (left objectBB))
                            (py_int (right objectBB)))) <> 3 ->
    compute_object_histogram img objectBB channels mask num_bins intervals
    = Ok (repeat (Fin 0) (b0 * b1 + b2)).
Proof.
  intros img objectBB channels mask num_bins intervals b0 b1 b2 H0 H1 H2 Hn.
  unfold compute_object_histogram, getitem.
  rewrite H0, H1, H2. cbn [rbind].
  apply Nat.eqb_neq in Hn. rewrite Hn. reflexivity.
Qed.

(** A greyscale pixel: one channel, so the zero vector of length 6. *)
Lemma compute_object_histogram_not_three_channels_witness :
  compute_object_histogram greyscale_img pixel_box hsv_channels None two_bins
                           hsv_intervals
  = Ok (repeat (Fin 0) (2 * 2 + 2)).
Proof.
  apply (@compute_object_histogram_not_three_channels
           greyscale_img pixel_box hsv_channels None two_bins hsv_intervals
           2 2 2);
    try reflexivity.
  vm_compute. intros H; discriminate H.
Defined.

(** ** The externally supplied mask *)

(** C2 (the code departs from it).  The builder takes the externally
    supplied mask and never reads it, so the scorer, which passes its
    mask on to the builder, scores as if it had been given none.  On a
    grey pixel with an external mask that excludes it, the code still
    counts the pixel in the achromatic histogram, where a builder that
    used the external mask in place of the achromatic mask would count
    nothing. *)
Theorem external_mask_never_applied :
  (forall (img : image) (bb : BB) (channels : list nat) (mask : option plane)
          (num_bins : list nat) (intervals : list Q),
      compute_object_histogram img bb channels mask num_bins intervals
      = compute_object_histogram img bb channels None num_bins intervals)
  /\ (forall (centered_on : BB -> Q -> Q -> BB) (particles : list particle)
             (hsv_img : image) (mask : option plane) (self : classifier),
         particle_weight centered_on particles hsv_img mask self
         = particle_weight centered_on particles hsv_img None self)
  /\ compute_object_histogram grey_img pixel_box hsv_channels
                              (Some [[0%Z]]) two_bins hsv_intervals
     = Ok (map Fin (map (fun n => INR n / INR 1)%R [0; 0; 0; 0; 1; 0]))
  /\ spec_compute_object_histogram grey_img pixel_box hsv_channels
                                   (Some [[0%Z]]) two_bins hsv_intervals
     = Ok (repeat NaN 6)
  /\ compute_object_histogram grey_img pixel_box hsv_channels
                              (Some [[0%Z]]) two_bins hsv_intervals
     <> spec_compute_object_histogram grey_img pixel_box hsv_channels
                                      (Some [[0%Z]]) two_bins hsv_intervals.
Proof.
  assert (Hc : compute_object_histogram grey_img pixel_box hsv_channels
                 (Some [[0%Z]]) two_bins hsv_intervals
               = Ok (map Fin (map (fun n => INR n / INR 1)%R
                                  [0; 0; 0; 0; 1; 0]))).
  { run_builder.
    exact (f_equal Ok (divide_counts_pos [0; 0; 0; 0; 1; 0] (le_n 1))). }
  assert (Hs : spec_compute_object_histogram grey_img pixel_box hsv_channels
                 (Some [[0%Z]]) two_bins hsv_intervals
               = Ok (repeat NaN 6)).
  { run_builder.
    exact (f_equal Ok (divide_counts_zero [0; 0; 0; 0; 0; 0] eq_refl)). }
  split; [reflexivity |]. split; [reflexivity |].
  split; [exact Hc |]. split; [exact Hs |].
  rewrite Hc, Hs. simpl. discriminate.
Qed.

(** ** Scoring does not write to the classifier *)

Lemma read_only_ret {A} (a : A) : read_only (ret a).
Proof. intros self. reflexivity. Qed.

Lemma read_only_getattr {A} (f : classifier -> A) : read_only (getattr f).
Proof. intros self. reflexivity. Qed.

Lemma read_only_lift {A} (r : result A) : read_only (lift r).
Proof. intros self. reflexivity. Qed.

Lemma read_only_bind {A B} (m : M A) (k : A -> M B) :
  read_only m -> (forall a, read_only (k a)) -> read_only (bind m k).
Proof.
  intros Hm Hk self. unfold bind.
  specialize (Hm self). destruct (m self) as [[a | e] self']; simpl in Hm; subst self'.
  - apply Hk.
  - reflexivity.
Qed.

Lemma read_only_for_each {A B} (l : list A) (body : A -> M B) :
  (forall a, read_only (body a)) -> read_only (for_each l body).
Proof.
  intros Hbody. induction l as [| a l IH]; simpl.
  - apply read_only_ret.
  - apply read_only_bind; [apply Hbody | intros b].
    apply read_only_bind; [exact IH | intros bs; apply read_only_ret].
Qed.

Create HintDb read_only.
#[local] Hint Resolve read_only_ret read_only_getattr read_only_lift : read_only.

Lemma particle_weight_read_only centered_on particles hsv_img mask :
  read_only (particle_weight centered_on particles hsv_img mask).
Proof.
  unfold particle_weight.
  repeat first
    [ apply read_only_bind; [| intro]
    | apply read_only_for_each; intro
    | solve [auto with read_only] ].
Qed.

(** C8.  Neither [particle_weight] nor [score_object] changes the
    classifier -- reference signature, reference region, histogram
    parameters and stored crop are those they found, whether the call
    returns or raises -- and the model updater writes the reference
    signature only. *)
Theorem scoring_leaves_classifier_unchanged :
  forall (centered_on : BB -> Q -> Q -> BB) (centroid : BB -> list particle)
         (particles : list particle) (hsv_img : image) (bb : BB)
         (mask : option plane) (self : classifier),
    snd (particle_weight centered_on particles hsv_img mask self) = self
    /\ snd (score_object centered_on centroid hsv_img bb mask self) = self
    /\ (forall new_histogram update_factor,
          let self' :=
            snd (update_object_histogram new_histogram update_factor self) in
          _bb self' = _bb self
          /\ _obj_img self' = _obj_img self
          /\ _color_hist_params self' = _color_hist_params self).
Proof.
  intros centered_on centroid particles hsv_img bb mask self.
  split; [| split].
  - apply particle_weight_read_only.
  - unfold score_object. apply particle_weight_read_only.
  - intros new_histogram update_factor.
    unfold update_object_histogram, bind, getattr, lift, set_color_hist.
    destruct (np.broadcast _ _ _) as [h | e]; simpl; auto.
Qed.

(** ** The model updater *)

Lemma length_map2 {A B C} (f : A -> B -> C) (l : list A) (m : list B) :
  length l = length m -> length (map2 f l m) = length l.
Proof.
  revert m. induction l as [| a l IH]; intros [| b m] H; simpl in *;
    try discriminate; [reflexivity |].
  f_equal. apply IH. lia.
Qed.

Lemma blend_fin (a b : R) (old new : list R) :
  map2 add (np.scale (Fin a) (map Fin old)) (np.scale (Fin b) (map Fin new))
  = map Fin (map2 (fun o n => a * o + b * n)%R old new).
Proof.
  revert new. induction old as [| o old IH]; intros [| n new]; simpl;
    try reflexivity.
  f_equal. apply IH.
Qed.

Lemma blend_zero (old new : list R) :
  length new = length old ->
  map2 (fun o n => (1 - 0) * o + 0 * n)%R old new = old.
Proof.
  revert new. induction old as [| o old IH]; intros [| n new] H; simpl in *;
    try discriminate; [reflexivity |].
  f_equal; [lra | apply IH; lia].
Qed.

Lemma blend_one (old new : list R) :
  length new = length old ->
  map2 (fun o n => (1 - 1) * o + 1 * n)%R old new = new.
Proof.
  revert new. induction old as [| o old IH]; intros [| n new] H; simpl in *;
    try discriminate; [reflexivity |].
  f_equal; [lra | apply IH; lia].
Qed.

(** C7, amended.  On histograms of finite bins and equal length, the
    updater stores exactly [(1 - update_factor) * old + update_factor * new],
    bin by bin and without renormalising, and touches nothing else; with
    factor 0 the classifier is unchanged, with factor 1 the reference
    signature is [new_histogram]. *)
Theorem update_object_histogram_blend :
  forall (self : classifier) (old new : list R) (u : R),
    _color_hist self = map Fin old ->
    length new = length old ->
    update_object_histogram (map Fin new) (Fin u) self
    = (Ok tt,
       mkClassifier (_bb self) (_obj_img self) (_color_hist_params self)
         (map Fin (map2 (fun o n => (1 - u) * o + u * n)%R old new)))
    /\ (u = 0%R ->
        snd (update_object_histogram (map Fin new) (Fin u) self) = self)
    /\ (u = 1%R ->
        _color_hist (snd (update_object_histogram (map Fin new) (Fin u) self))
        = map Fin new).
Proof.
  intros self old new u Hold Hlen.
  assert (Hrun : update_object_histogram (map Fin new) (Fin u) self
                 = (Ok tt,
                    mkClassifier (_bb self) (_obj_img self)
                      (_color_hist_params self)
                      (map Fin (map2 (fun o n => (1 - u) * o + u * n)%R
                                     old new)))).
  { unfold update_object_histogram, bind, getattr, lift, set_color_hist.
    rewrite Hold. unfold np.broadcast, np.scale.
    rewrite !length_map, Hlen, Nat.eqb_refl.
    change (sub (Fin 1) (Fin u)) with (Fin (1 - u)).
    cbn [fst snd]. fold (np.scale (Fin (1 - u)) (map Fin old)).
    fold (np.scale (Fin u) (map Fin new)).
    rewrite blend_fin. reflexivity. }
  split; [exact Hrun |]. rewrite Hrun. cbn [snd _color_hist].
  split; intros ->.
  - rewrite blend_zero by exact Hlen. rewrite <- Hold.
    destruct self; reflexivity.
  - rewrite blend_one by exact Hlen. reflexivity.
Qed.

(** A two-bin reference blended half-way with another histogram. *)
Lemma update_object_histogram_blend_witness :
  update_object_histogram (map Fin [0; 1]%R) (Fin (1 / 2))
    (mkClassifier pixel_box [] (mkParams hsv_channels None two_bins
                                          hsv_intervals)
                  (map Fin [1; 0]%R))
  = (Ok tt,
     mkClassifier pixel_box [] (mkParams hsv_channels None two_bins
                                         hsv_intervals)
       (map Fin (map2 (fun o n => (1 - 1 / 2) * o + 1 / 2 * n)%R
                      [1; 0]%R [0; 1]%R))).
Proof.
  apply (update_object_histogram_blend
           (mkClassifier pixel_box [] (mkParams hsv_channels None two_bins
                                                hsv_intervals)
                         (map Fin [1; 0]%R))
           [1; 0]%R [0; 1]%R (1 / 2)%R);
    reflexivity.
Defined.

(** ** The distance and the weight on finite histograms *)

Lemma divide_fin (l : list R) (s : R) :
  s <> 0%R -> np.divide (map Fin l) (Fin s) = map Fin (map (fun x => x / s)%R l).
Proof.
  intros Hs. unfold np.divide. rewrite !map_map.
  apply map_ext. intros x. apply div_fin. exact Hs.
Qed.

Lemma normalize_rows (g : float -> float) (rows : list (list float)) :
  map2 np.divide rows (map g (map np.sum rows))
  = map (fun r => np.divide r (g (np.sum r))) rows.
Proof.
  induction rows as [| r rows IH]; simpl; [reflexivity |].
  rewrite IH. reflexivity.
Qed.

Lemma normalize_candidate_fin (c : list R) :
  np.divide (map Fin c)
            (if eq_zero (np.sum (map Fin c)) then Fin 1
             else np.sum (map Fin c))
  = map Fin (renormalized_candidate c).
Proof.
  rewrite sum_fin. unfold renormalized_candidate, eq_zero.
  destruct (Req_dec_T (Rsum c) 0) as [E | N].
  - apply divide_fin. lra.
  - apply divide_fin. exact N.
Qed.

Lemma traverse_ok {A B} (f : A -> result B) (g : A -> B) (l : list A) :
  Forall (fun a => f a = Ok (g a)) l -> traverse f l = Ok (map g l).
Proof.
  induction 1 as [| a l Ha _ IH]; simpl; [reflexivity |].
  rewrite Ha, IH. reflexivity.
Qed.

Lemma div_nonneg (x s : R) : (0 <= x)%R -> (0 < s)%R -> (0 <= x / s)%R.
Proof.
  intros Hx Hs. unfold Rdiv. apply Rmult_le_pos; [exact Hx |].
  left. apply Rinv_0_lt_compat. exact Hs.
Qed.

Lemma renormalized_nonneg (h : list R) :
  Forall (fun x => 0 <= x)%R h -> Rsum h <> 0%R ->
  Forall (fun x => 0 <= x)%R (renormalized h).
Proof.
  intros Hh Hs. pose proof (Rsum_nonneg Hh) as Hge.
  unfold renormalized. apply Forall_map.
  eapply Forall_impl; [| exact Hh].
  intros x Hx. apply div_nonneg; [exact Hx | lra].
Qed.

Lemma renormalized_candidate_nonneg (h : list R) :
  Forall (fun x => 0 <= x)%R h ->
  Forall (fun x => 0 <= x)%R (renormalized_candidate h).
Proof.
  intros Hh. pose proof (Rsum_nonneg Hh) as Hge.
  unfold renormalized_candidate. apply Forall_map.
  eapply Forall_impl; [| exact Hh].
  intros x Hx. apply div_nonneg; [exact Hx |].
  destruct (Req_dec_T (Rsum h) 0); lra.
Qed.

Lemma sqrt_map_fin (l : list R) :
  Forall (fun x => 0 <= x)%R l ->
  map sqrt (map Fin l) = map Fin (map R_sqrt.sqrt l).
Proof.
  induction 1 as [| x l Hx _ IH]; simpl; [reflexivity |].
  rewrite IH. destruct (Rlt_dec x 0); [lra | reflexivity].
Qed.

Lemma squared_differences_fin (a b : list R) :
  map (fun x => power x 2) (map2 sub (map Fin (map R_sqrt.sqrt a))
                                     (map Fin (map R_sqrt.sqrt b)))
  = map Fin (map2 (fun r c => (R_sqrt.sqrt r - R_sqrt.sqrt c) ^ 2)%R a b).
Proof.
  revert b. induction a as [| x a IH]; intros [| y b]; simpl; try reflexivity.
  rewrite IH. reflexivity.
Qed.

Lemma Rsum_squares_nonneg (a b : list R) :
  (0 <= Rsum (map2 (fun r c => (R_sqrt.sqrt r - R_sqrt.sqrt c) ^ 2)%R a b))%R.
Proof.
  apply Rsum_nonneg.
  revert b. induction a as [| x a IH]; intros [| y b]; simpl; constructor.
  - apply pow2_ge_0.
  - apply IH.
Qed.

Lemma sqrt2_neq_0 : R_sqrt.sqrt 2 <> 0%R.
Proof.
  pose proof (sqrt_lt_R0 2). lra.
Qed.

(** One candidate: the code's row of [dist] is the specification's
    distance between the two renormalised histograms. *)
Lemma row_distance_fin (a b : list R) :
  Forall (fun x => 0 <= x)%R a -> Forall (fun x => 0 <= x)%R b ->
  length a = length b ->
  rbind (np.broadcast sub (map sqrt (map Fin a)) (map sqrt (map Fin b)))
        (fun diff =>
           Ok (mul (div (Fin 1) (sqrt (Fin 2)))
                   (sqrt (np.sum (map (fun x => power x 2) diff)))))
  = Ok (Fin (bhattacharyya_distance a b)).
Proof.
  intros Ha Hb Hlen.
  rewrite (sqrt_map_fin Ha), (sqrt_map_fin Hb).
  unfold np.broadcast. rewrite !length_map, Hlen, Nat.eqb_refl.
  cbn [rbind]. rewrite squared_differences_fin, sum_fin.
  rewrite (sqrt_fin (Rsum_squares_nonneg a b)).
  rewrite (@sqrt_fin 2) by lra. rewrite (div_fin 1 sqrt2_neq_0).
  reflexivity.
Qed.

Lemma traverse_then_map {A B C} (f : A -> result B) (k : B -> C) (l : list A) :
  rbind (traverse f l) (fun d => Ok (map k d))
  = traverse (fun a => rbind (f a) (fun x => Ok (k x))) l.
Proof.
  induction l as [| a l IH]; simpl; [reflexivity |].
  rewrite <- IH. destruct (f a) as [b | e]; simpl; [| reflexivity].
  destruct (traverse f l) as [bs | e]; reflexivity.
Qed.

Lemma traverse_map_ok {A B C} (f : B -> result C) (h : A -> B) (g : A -> C)
      (l : list A) :
  Forall (fun a => f (h a) = Ok (g a)) l -> traverse f (map h l) = Ok (map g l).
Proof.
  induction 1 as [| a l Ha _ IH]; simpl; [reflexivity |].
  rewrite Ha, IH. reflexivity.
Qed.

(** Lines 115-123 on finite, non-negative histograms. *)
Lemma dist_finite (ref : list R) (cands : list (list R)) (width : nat) :
  length ref = width ->
  Forall (fun c => length c = width) cands ->
  Forall (fun x => 0 <= x)%R ref ->
  Rsum ref <> 0%R ->
  Forall (Forall (fun x => 0 <= x)%R) cands ->
  dist (map Fin ref) (map (map Fin) cands) width
  = Ok (map (fun c => Fin (bhattacharyya_distance
                             (renormalized ref) (renormalized_candidate c)))
            cands).
Proof.
  intros Hlen Hlens Hpos Hsum Hcands. unfold dist.
  rewrite sum_fin, (divide_fin ref Hsum). fold (renormalized ref).
  rewrite normalize_rows.
  replace (map (fun r => np.divide r (if eq_zero (np.sum r) then Fin 1
                                      else np.sum r))
               (map (map Fin) cands))
    with (map (fun c => map Fin (renormalized_candidate c)) cands)
    by (rewrite map_map; apply map_ext; intros c; symmetry;
        apply normalize_candidate_fin).
  replace (length (map Fin (renormalized ref)) =? width) with true
    by (unfold renormalized; rewrite !length_map, Hlen, Nat.eqb_refl;
        reflexivity).
  cbn [orb negb]. rewrite traverse_then_map.
  apply traverse_map_ok.
  rewrite Forall_forall in *. intros c Hc.
  apply row_distance_fin.
  - apply renormalized_nonneg; [| assumption].
    rewrite Forall_forall. assumption.
  - apply renormalized_candidate_nonneg. apply Hcands. exact Hc.
  - unfold renormalized, renormalized_candidate.
    rewrite !length_map, Hlen. symmetry. apply Hlens. exact Hc.
Qed.

(** Lines 125-126 on a finite distance. *)
Lemma all_weights_fin (ds : list R) :
  all_weights (map Fin ds) = map Fin (map gaussian_weight ds).
Proof.
  unfold all_weights. rewrite !map_map. apply map_ext. intros d.
  unfold sigma. cbn [power neg mul].
  rewrite div_fin by lra. reflexivity.
Qed.

Lemma gaussian_weight_0 : gaussian_weight 0 = 1%R.
Proof.
  unfold gaussian_weight.
  replace (- 0 ^ 2 / (2 * (1 / 10) ^ 2))%R with 0%R by (simpl; lra).
  apply exp_0.
Qed.

(** ** A candidate whose histogram sums to zero *)




Lemma Rsum_renormalized (h : list R) : Rsum h <> 0%R -> Rsum (renormalized h) = 1%R.
Proof.
  intros Hs. unfold renormalized. rewrite Rsum_div. field. exact Hs.
Qed.


Lemma sqrt2_squared : (R_sqrt.sqrt 2 * R_sqrt.sqrt 2 = 2)%R.
Proof. apply sqrt_sqrt. lra. Qed.





(** ** The builder returns, and returns the allocated length *)

Lemma length_incr (k : nat) (h : list nat) : length (cv2.incr k h) = length h.
Proof.
  revert k. induction h as [| c h IH]; intros [| k]; simpl; try reflexivity.
  rewrite IH. reflexivity.
Qed.

Lemma length_count_pixels chans sizes ranges (l : list (pixel * Z)) (h : list nat) :
  length (fold_left (cv2.count_pixel chans sizes ranges) l h) = length h.
Proof.
  revert h. induction l as [| pm l IH]; intros h; simpl; [reflexivity |].
  rewrite IH. unfold cv2.count_pixel.
  destruct (snd pm =? 0)%Z; [reflexivity |].
  destruct (cv2.flat_bin _ _ _ _ _); [apply length_incr | reflexivity].
Qed.

Lemma calcHist_total (img : image) (channels : list nat) (mask : plane)
      (histSize : list nat) (ranges : list Q) :
  0 < length histSize ->
  length ranges = 2 * length histSize ->
  length channels = length histSize ->
  forallb (fun c => c <? cv2.channels_of img) channels = true ->
  forallb cv2.range_ok (cv2.ranges_of ranges) = true ->
  fold_right Nat.mul 1 histSize <> 0 ->
  exists h, cv2.calcHist img channels mask histSize ranges = Ok (Some h)
            /\ length h = fold_right Nat.mul 1 histSize.
Proof.
  intros Hdims Hr Hc Hchans Hranges Hbins. unfold cv2.calcHist.
  apply Nat.ltb_lt in Hdims. rewrite Hdims. cbn [negb].
  rewrite Hr, Nat.eqb_refl. cbn [orb negb].
  rewrite Hc, Nat.eqb_refl. cbn [orb negb].
  apply Nat.ltb_lt in Hdims.
  replace (length histSize =? 0) with false
    by (symmetry; apply Nat.eqb_neq; lia).
  replace (2 * length histSize =? 0) with false
    by (symmetry; apply Nat.eqb_neq; lia).
  rewrite Hchans, Hranges. cbn [negb].
  apply Nat.eqb_neq in Hbins. rewrite Hbins.
  eexists. split; [reflexivity |].
  rewrite length_count_pixels. apply repeat_length.
Qed.

Lemma split_three_channels (m : image) :
  length (cv2.split m) = 3 -> cv2.channels_of m = 3.
Proof.
  unfold cv2.split. destruct (cv2.empty m); simpl; [discriminate |].
  rewrite length_map, length_seq. trivial.
Qed.

Lemma compute_object_histogram_returns (img : image) (objectBB : BB)
      (channels : list nat) (mask : option plane) (num_bins : list nat)
      (intervals : list Q) :
  well_formed_params channels num_bins intervals ->
  exists h,
    compute_object_histogram img objectBB channels mask num_bins intervals
    = Ok h
    /\ length h = nth 0 num_bins 0 * nth 1 num_bins 0 + nth 2 num_bins 0.
Proof.
  intros (Hb & Hpos & Hc & Hlt & Hi & Hr).
  destruct num_bins as [| b0 [| b1 [| b2 [| ? ?]]]]; try discriminate Hb.
  destruct channels as [| c0 [| c1 [| c2 [| ? ?]]]]; try discriminate Hc.
  destruct intervals as [| l0 [| h0 [| l1 [| h1 [| l2 [| h2 [| ? ?]]]]]]];
    try discriminate Hi.
  inversion Hpos as [| ? ? Hb0 Hpos1]; subst.
  inversion Hpos1 as [| ? ? Hb1 Hpos2]; subst.
  inversion Hpos2 as [| ? ? Hb2 _]; subst.
  cbn [nth].
  set (obj_image := crop img (py_int (top objectBB)) (py_int (bottom objectBB))
                         (py_int (left objectBB)) (py_int (right objectBB))).
  destruct (Nat.eq_dec (length (cv2.split obj_image)) 3) as [E3 | N3].
  - pose proof (split_three_channels _ E3) as Hcn.
    inversion Hlt as [| ? ? Hc0 Hlt1]; subst.
    inversion Hlt1 as [| ? ? Hc1 Hlt2]; subst.
    inversion Hlt2 as [| ? ? Hc2 _]; subst.
    cbn [cv2.ranges_of forallb fst snd] in Hr.
    apply andb_true_iff in Hr. destruct Hr as [Hr0 Hr].
    apply andb_true_iff in Hr. destruct Hr as [Hr1 Hr].
    destruct (@calcHist_total obj_image [c0; c1]
                (cv2.bitwise_and
                   (cv2.threshold (nth 0 (cv2.split obj_image) []) 25 255)
                   (cv2.threshold (nth 1 (cv2.split obj_image) []) 51 255))
                [b0; b1] [l0; h0; l1; h1]) as (hs & Hhs & Lhs);
      try reflexivity.
    { simpl; lia. }
    { cbn [forallb]. rewrite Hcn.
      apply Nat.ltb_lt in Hc0, Hc1. rewrite Hc0, Hc1. reflexivity. }
    { cbn [cv2.ranges_of forallb fst snd]. rewrite Hr0, Hr1. reflexivity. }
    { cbn [fold_right]. nia. }
    destruct (@calcHist_total obj_image [c2]
                (cv2.bitwise_xor
                   (cv2.bitwise_and
                      (cv2.threshold (nth 0 (cv2.split obj_image) []) 25 255)
                      (cv2.threshold (nth 1 (cv2.split obj_image) []) 51 255))
                   (map (map (fun _ : Z => 255%Z))
                        (cv2.threshold (nth 0 (cv2.split obj_image) []) 25
                                       255)))
                [b2] [l2; h2]) as (v & Hv & Lv);
      try reflexivity.
    { simpl; lia. }
    { cbn [forallb]. rewrite Hcn.
      apply Nat.ltb_lt in Hc2. rewrite Hc2. reflexivity. }
    { cbn [cv2.ranges_of forallb fst snd]. exact Hr. }
    { cbn [fold_right]. lia. }
    exists (np.divide (map of_nat (hs ++ v)) (np.sum (map of_nat (hs ++ v)))).
    split.
    + apply builder_three_channels; assumption.
    + unfold np.divide. rewrite !length_map, length_app, Lhs, Lv. simpl. lia.
  - exists (np.zeros (b0 * b1 + b2)). split.
    + apply builder_not_three_channels. exact N3.
    + apply repeat_length.
Qed.

(** ** NaN propagates through the scorer *)

Lemma mul_nan_r (a : float) : mul a NaN = NaN.
Proof. destruct a; reflexivity. Qed.

Lemma sum_zeros (n : nat) : np.sum (np.zeros n) = Fin 0.
Proof.
  unfold np.sum, np.zeros. induction n as [| n IH]; simpl; [reflexivity |].
  rewrite IH. simpl. f_equal. lra.
Qed.

Lemma divide_zeros_by_zero (n : nat) :
  np.divide (np.zeros n) (Fin 0) = repeat NaN n.
Proof.
  unfold np.divide, np.zeros. induction n as [| n IH]; cbn [repeat map];
    [reflexivity |].
  rewrite IH, div_zero_zero. reflexivity.
Qed.

Lemma sub_nan_rows (n : nat) (l : list float) :
  length l = n -> map2 sub (repeat NaN n) l = repeat NaN n.
Proof.
  revert l. induction n as [| n IH]; intros [| x l] H; simpl in *;
    try discriminate; [reflexivity |].
  rewrite IH by lia. reflexivity.
Qed.

Lemma sum_nan (n : nat) : 0 < n -> np.sum (repeat NaN n) = NaN.
Proof.
  destruct n as [| n]; [lia | reflexivity].
Qed.

Lemma map_repeat {A B} (f : A -> B) (a : A) (n : nat) :
  map f (repeat a n) = repeat (f a) n.
Proof.
  induction n as [| n IH]; simpl; [reflexivity | rewrite IH; reflexivity].
Qed.

Lemma map_const_repeat {A B} (b : B) (l : list A) :
  map (fun _ => b) l = repeat b (length l).
Proof.
  induction l as [| a l IH]; simpl; [reflexivity | rewrite IH; reflexivity].
Qed.

(** An all-zero reference is renormalised to NaN, and every distance is
    NaN with it. *)
Lemma dist_zero_reference (n : nat) (rows : list (list float)) :
  0 < n ->
  Forall (fun r => length r = n) rows ->
  dist (np.zeros n) rows n = Ok (repeat NaN (length rows)).
Proof.
  intros Hn Hrows. unfold dist.
  rewrite sum_zeros, divide_zeros_by_zero, normalize_rows.
  rewrite repeat_length, Nat.eqb_refl. cbn [orb negb].
  rewrite traverse_then_map, map_repeat. cbn [sqrt].
  rewrite <- map_const_repeat.
  apply traverse_map_ok.
  eapply Forall_impl; [| exact Hrows].
  intros r Hr. cbv beta. unfold np.broadcast.
  rewrite repeat_length. unfold np.divide at 1. rewrite !length_map, Hr.
  rewrite Nat.eqb_refl. cbn [rbind].
  rewrite sub_nan_rows by (unfold np.divide; rewrite !length_map; exact Hr).
  rewrite map_repeat. cbn [power mul].
  rewrite (sum_nan Hn). cbn [sqrt]. rewrite mul_nan_r. reflexivity.
Qed.

Lemma all_weights_nan (n : nat) : all_weights (repeat NaN n) = repeat NaN n.
Proof.
  unfold all_weights. rewrite map_repeat. reflexivity.
Qed.

Lemma mask_nan (n : nat) (l : list float) :
  length l = n -> map2 mul (repeat NaN n) l = repeat NaN n.
Proof.
  revert l. induction n as [| n IH]; intros [| x l] H; simpl in *;
    try discriminate; [reflexivity |].
  rewrite IH by lia. reflexivity.
Qed.

Lemma length_valid_mask (particles : list particle) (hsv_img : image) :
  length (valid_mask particles hsv_img) = length particles.
Proof.
  unfold valid_mask.
  induction particles as [| p particles IH]; simpl; [reflexivity |].
  rewrite IH. reflexivity.
Qed.

(** The loop of lines 108-113 only reads the object. *)
Lemma for_each_particle_hist centered_on particles hsv_img mask self :
  for_each particles
    (fun state : particle =>
       bind (getattr _bb) (fun bb =>
       bind (getattr _color_hist_params) (fun params =>
       lift (compute_object_histogram hsv_img
               (centered_on bb (fst state) (snd state))
               (params_channels params) mask (params_num_bins params)
               (params_intervals params))))) self
  = (traverse
       (fun state : particle =>
          compute_object_histogram hsv_img
            (centered_on (_bb self) (fst state) (snd state))
            (params_channels (_color_hist_params self)) mask
            (params_num_bins (_color_hist_params self))
            (params_intervals (_color_hist_params self))) particles,
     self).
Proof.
  induction particles as [| state particles IH]; [reflexivity |].
  cbn [for_each traverse]. unfold bind at 1. unfold bind at 1.
  unfold bind at 1. unfold getattr at 1 2. unfold lift at 1.
  destruct (compute_object_histogram _ _ _ _ _ _) as [h | e];
    cbn [rbind]; [| reflexivity].
  unfold bind at 1. rewrite IH.
  destruct (traverse _ particles) as [hs | e]; reflexivity.
Qed.

Lemma traverse_total {A B} (f : A -> result B) (P : B -> Prop) (l : list A) :
  (forall a, exists b, f a = Ok b /\ P b) ->
  exists bs, traverse f l = Ok bs /\ Forall P bs /\ length bs = length l.
Proof.
  intros Hf. induction l as [| a l (bs & Hbs & HP & Hlen)].
  - exists []. repeat split. constructor.
  - destruct (Hf a) as (b & Hb & Pb). exists (b :: bs). simpl.
    rewrite Hb, Hbs. repeat split; [constructor; assumption | lia].
Qed.

(** With well-formed parameters and an all-zero reference signature,
    every weight the scorer returns is NaN. *)
Lemma particle_weight_zero_reference centered_on particles hsv_img mask self
      (b0 b1 b2 : nat) :
  params_num_bins (_color_hist_params self) = [b0; b1; b2] ->
  well_formed_params (params_channels (_color_hist_params self))
                     (params_num_bins (_color_hist_params self))
                     (params_intervals (_color_hist_params self)) ->
  _color_hist self = np.zeros (b0 * b1 + b2) ->
  0 < b0 * b1 + b2 ->
  fst (particle_weight centered_on particles hsv_img mask self)
  = Ok (repeat [NaN] (length particles)).
Proof.
  intros Hbins Hwf Href Hpos. unfold particle_weight.
  unfold bind at 1. unfold getattr at 1. rewrite Hbins.
  unfold bind at 1, lift at 1, getitem at 1. cbn [nth_error].
  unfold bind at 1, lift at 1, getitem at 1. cbn [nth_error].
  unfold bind at 1, lift at 1, getitem at 1. cbn [nth_error].
  unfold bind at 1. rewrite for_each_particle_hist.
  destruct (@traverse_total _ _
              (fun state : particle =>
                 compute_object_histogram hsv_img
                   (centered_on (_bb self) (fst state) (snd state))
                   (params_channels (_color_hist_params self)) mask
                   (params_num_bins (_color_hist_params self))
                   (params_intervals (_color_hist_params self)))
              (fun h => length h = b0 * b1 + b2) particles)
    as (hs & Hhs & Hlens & Hcount).
  { intros state.
    destruct (compute_object_histogram_returns hsv_img
                (centered_on (_bb self) (fst state) (snd state)) mask Hwf)
      as (h & Hh & Hlen).
    exists h. split; [exact Hh |]. rewrite Hlen, Hbins. reflexivity. }
  rewrite Hhs. unfold bind at 1, getattr at 1. rewrite Href.
  unfold bind at 1, lift at 1.
  rewrite (dist_zero_reference Hpos Hlens). unfold ret. cbn [fst].
  rewrite all_weights_nan, Hcount.
  rewrite mask_nan by (rewrite length_map; apply length_valid_mask).
  rewrite map_repeat. reflexivity.
Qed.

(** ** A classifier built on a region of no area *)

Lemma init_empty_box :
  __init__ grey_img empty_box hsv_channels None two_bins hsv_intervals
  = Ok (mkClassifier empty_box []
          (mkParams hsv_channels None two_bins hsv_intervals)
          (np.zeros (2 * 2 + 2))).
Proof.
  unfold __init__. cbn [params_channels params_mask params_num_bins
                        params_intervals].
  unfold two_bins. rewrite builder_not_three_channels; [reflexivity |].
  vm_compute. intros H; discriminate H.
Qed.

Lemma hsv_params_well_formed :
  well_formed_params hsv_channels two_bins hsv_intervals.
Proof.
  repeat split; repeat constructor.
Qed.

(** C4 (the code departs from it).  A classifier built on a box of no
    area stores the all-zero reference signature; scoring then divides
    that signature by its zero sum, and the particle centred at
    [(-1, 0)], left of the image, is given the weight NaN, not 0:
    the product of NaN and the cleared validity flag is NaN. *)
Theorem out_of_bounds_particle_weight_nan :
  forall centered_on : BB -> Q -> Q -> BB,
  exists self : classifier,
    __init__ grey_img empty_box hsv_channels None two_bins hsv_intervals
    = Ok self
    /\ valid_mask [((- 1)%Q, 0%Q)] grey_img = [false]
    /\ fst (particle_weight centered_on [((- 1)%Q, 0%Q)] grey_img None self)
       = Ok [[NaN]].
Proof.
  intros centered_on. eexists. split; [exact init_empty_box |].
  split; [reflexivity |].
  apply (@particle_weight_zero_reference centered_on [((- 1)%Q, 0%Q)]
           grey_img None _ 2 2 2).
  - reflexivity.
  - exact hsv_params_well_formed.
  - reflexivity.
  - simpl; lia.
Qed.

(** C6 (the code departs from it).  With the same classifier the
    particle centred on the pixel at the origin, inside the image, is
    given a weight that is NaN, hence not in [0, 1]. *)
Theorem in_bounds_particle_weight_outside_unit_interval :
  forall centered_on : BB -> Q -> Q -> BB,
  exists (self : classifier) (w : float),
    __init__ grey_img empty_box hsv_channels None two_bins hsv_intervals
    = Ok self
    /\ valid_mask [(0%Q, 0%Q)] grey_img = [true]
    /\ fst (particle_weight centered_on [(0%Q, 0%Q)] grey_img None self)
       = Ok [[w]]
    /\ ~ between 0 1 w.
Proof.
  intros centered_on. eexists. exists NaN. split; [exact init_empty_box |].
  split; [reflexivity |]. split.
  - apply (@particle_weight_zero_reference centered_on [(0%Q, 0%Q)]
             grey_img None _ 2 2 2).
    + reflexivity.
    + exact hsv_params_well_formed.
    + reflexivity.
    + simpl; lia.
  - intros H. exact H.
Qed.

(** ** Parameter shapes at construction *)

(** C9, as stated, fails: a bin-count list of four entries is accepted,
    and the classifier is built as if the fourth were not there. *)
Lemma init_accepts_four_bin_counts :
  length [2; 2; 2; 7] <> 3
  /\ __init__ grey_img pixel_box hsv_channels None [2; 2; 2; 7] hsv_intervals
     = Ok (mkClassifier pixel_box grey_img
             (mkParams hsv_channels None [2; 2; 2; 7] hsv_intervals)
             (map Fin (map (fun n => INR n / INR 1)%R [0; 0; 0; 0; 1; 0]))).
Proof.
  split; [simpl; lia |].
  unfold __init__. cbn [params_channels params_mask params_num_bins
                        params_intervals].
  replace (compute_object_histogram grey_img pixel_box hsv_channels None
             [2; 2; 2; 7] hsv_intervals)
    with (Ok (A := list float)
             (map Fin (map (fun n => INR n / INR 1)%R [0; 0; 0; 0; 1; 0]))).
  - reflexivity.
  - symmetry. run_builder.
    exact (f_equal Ok (divide_counts_pos [0; 0; 0; 0; 1; 0] (le_n 1))).
Qed.

(** C9, amended.  The constructor validates no shape itself.  It raises
    [IndexError] when the bin-count list has fewer than three entries;
    with three or more it builds the reference signature from the first
    three, ignoring the rest; and when the initial crop does not split
    into three channels it accepts any list of intervals. *)
Theorem init_validates_no_shape :
  forall (hsv_img : image) (bb : BB) (hist_channels : list nat)
         (hist_mask : option plane) (hist_intervals : list Q)
         (b0 b1 b2 : nat) (more : list nat),
    __init__ hsv_img bb hist_channels hist_mask [] hist_intervals
    = Raise IndexError
    /\ __init__ hsv_img bb hist_channels hist_mask [b0] hist_intervals
       = Raise IndexError
    /\ __init__ hsv_img bb hist_channels hist_mask [b0; b1] hist_intervals
       = Raise IndexError
    /\ __init__ hsv_img bb hist_channels hist_mask (b0 :: b1 :: b2 :: more)
                hist_intervals
       = (color_hist <- compute_object_histogram hsv_img bb hist_channels
                          hist_mask [b0; b1; b2] hist_intervals ;;
          Ok (mkClassifier bb
                (crop hsv_img (py_int (top bb)) (py_int (bottom bb))
                      (py_int (left bb)) (py_int (right bb)))
                (mkParams hist_channels hist_mask (b0 :: b1 :: b2 :: more)
                          hist_intervals)
                color_hist))
    /\ (if length (cv2.split (crop hsv_img (py_int (top bb))
                                   (py_int (bottom bb)) (py_int (left bb))
                                   (py_int (right bb)))) =? 3
        then True
        else __init__ hsv_img bb hist_channels hist_mask
                      (b0 :: b1 :: b2 :: more) hist_intervals
             = Ok (mkClassifier bb
                     (crop hsv_img (py_int (top bb)) (py_int (bottom bb))
                           (py_int (left bb)) (py_int (right bb)))
                     (mkParams hist_channels hist_mask
                               (b0 :: b1 :: b2 :: more) hist_intervals)
                     (np.zeros (b0 * b1 + b2)))).
Proof.
  intros hsv_img bb hist_channels hist_mask hist_intervals b0 b1 b2 more.
  repeat split.
  destruct (Nat.eqb_spec
              (length (cv2.split (crop hsv_img (py_int (top bb))
                                       (py_int (bottom bb))
                                       (py_int (left bb))
                                       (py_int (right bb))))) 3)
    as [E | N]; [exact I |].
  unfold __init__. cbn [params_channels params_mask params_num_bins
                        params_intervals].
  rewrite builder_not_three_channels by exact N. reflexivity.
Qed.

(** ** What the builder returns *)

Lemma builder_cases (img : image) (objectBB : BB) (channels : list nat)
      (mask : option plane) (num_bins : list nat) (intervals : list Q)
      (h : list float) :
  compute_object_histogram img objectBB channels mask num_bins intervals
  = Ok h ->
  (exists n, h = np.zeros n)
  \/ (exists counts,
        h = np.divide (map of_nat counts) (np.sum (map of_nat counts))).
Proof.
  unfold compute_object_histogram.
  destruct (getitem num_bins 0) as [b0 | e]; [| discriminate].
  destruct (getitem num_bins 1) as [b1 | e]; [| discriminate].
  destruct (getitem num_bins 2) as [b2 | e]; [| discriminate].
  cbn [rbind].
  destruct (length (cv2.split _) =? 3).
  - destruct (cv2.calcHist _ _ _ _ _) as [[hs |] | e];
      cbn [rbind]; try discriminate;
      (destruct (cv2.calcHist _ _ _ _ _) as [[v |] | e];
       cbn [rbind cv2.flatten]; try discriminate).
    intros H. injection H as <-. right. exists (hs ++ v).
    unfold np.concatenate. rewrite map_app. reflexivity.
  - intros H. injection H as <-. left. eexists. reflexivity.
Qed.

Lemma le_list_sum (n : nat) (l : list nat) : In n l -> n <= list_sum l.
Proof.
  induction l as [| m l IH]; simpl; [contradiction |].
  intros [-> | H]; [lia | specialize (IH H); lia].
Qed.

Lemma frequencies_in_unit_interval (l : list nat) :
  0 < list_sum l ->
  Forall (between 0 1) (map Fin (map (fun n => INR n / INR (list_sum l))%R l)).
Proof.
  intros Hpos. rewrite map_map. apply Forall_map. rewrite Forall_forall.
  intros n Hn. cbn [between].
  assert (Hs : (0 < INR (list_sum l))%R) by (apply lt_0_INR; exact Hpos).
  pose proof (pos_INR n) as H0.
  pose proof (le_INR _ _ (le_list_sum _ _ Hn)) as Hle.
  split.
  - apply div_nonneg; assumption.
  - apply Rmult_le_reg_r with (r := INR (list_sum l)); [exact Hs |].
    unfold Rdiv. rewrite Rmult_assoc, Rinv_l by lra. lra.
Qed.

Lemma frequencies_sum_to_one (l : list nat) :
  0 < list_sum l ->
  np.sum (map Fin (map (fun n => INR n / INR (list_sum l))%R l)) = Fin 1.
Proof.
  intros Hpos. rewrite sum_fin. f_equal.
  rewrite <- (map_map INR (fun x => x / INR (list_sum l))%R).
  rewrite Rsum_div, Rsum_INR. field. apply not_0_INR. lia.
Qed.

Lemma grey_pixel_histogram :
  compute_object_histogram grey_img pixel_box hsv_channels None two_bins
                           hsv_intervals
  = Ok (map Fin (map (fun n => INR n / INR 1)%R [0; 0; 0; 0; 1; 0])).
Proof.
  run_builder.
  exact (f_equal Ok (divide_counts_pos [0; 0; 0; 0; 1; 0] (le_n 1))).
Qed.

(** Whenever the builder returns, its vector is all zero (no
    three-channel crop), all NaN (a three-channel crop in which no pixel
    was counted), or a probability mass function: every bin in [0, 1]
    and the bins summing to 1. *)
Theorem compute_object_histogram_normalized :
  forall (img : image) (objectBB : BB) (channels : list nat)
         (mask : option plane) (num_bins : list nat) (intervals : list Q)
         (h : list float),
    compute_object_histogram img objectBB channels mask num_bins intervals
    = Ok h ->
    h = np.zeros (length h)
    \/ h = repeat NaN (length h)
    \/ (Forall (between 0 1) h /\ np.sum h = Fin 1).
Proof.
  intros img objectBB channels mask num_bins intervals h Hh.
  destruct (builder_cases _ _ _ _ _ _ Hh) as [(n & ->) | (l & ->)].
  - left. unfold np.zeros. rewrite repeat_length. reflexivity.
  - right. destruct (Nat.eq_dec (list_sum l) 0) as [E | N].
    + left. rewrite (divide_counts_zero l E), repeat_length. reflexivity.
    + right. rewrite divide_counts_pos by lia. split.
      * apply frequencies_in_unit_interval. lia.
      * apply frequencies_sum_to_one. lia.
Qed.

(** The grey pixel: one count in the achromatic part. *)
Lemma compute_object_histogram_normalized_witness :
  map Fin (map (fun n => INR n / INR 1)%R [0; 0; 0; 0; 1; 0])
  = np.zeros (length (map Fin (map (fun n => INR n / INR 1)%R
                                   [0; 0; 0; 0; 1; 0])))
  \/ map Fin (map (fun n => INR n / INR 1)%R [0; 0; 0; 0; 1; 0])
     = repeat NaN (length (map Fin (map (fun n => INR n / INR 1)%R
                                        [0; 0; 0; 0; 1; 0])))
  \/ (Forall (between 0 1)
             (map Fin (map (fun n => INR n / INR 1)%R [0; 0; 0; 0; 1; 0]))
      /\ np.sum (map Fin (map (fun n => INR n / INR 1)%R [0; 0; 0; 0; 1; 0]))
         = Fin 1).
Proof.
  exact (compute_object_histogram_normalized
           grey_img pixel_box hsv_channels None two_bins hsv_intervals
           grey_pixel_histogram).
Defined.

(** With well-formed parameters the builder returns for every image and
    every region, and its vector has the length
    [num_bins[0] * num_bins[1] + num_bins[2]]. *)
Theorem compute_object_histogram_never_raises :
  forall (img : image) (objectBB : BB) (channels : list nat)
         (mask : option plane) (num_bins : list nat) (intervals : list Q),
    well_formed_params channels num_bins intervals ->
    exists h,
      compute_object_histogram img objectBB channels mask num_bins intervals
      = Ok h
      /\ length h = nth 0 num_bins 0 * nth 1 num_bins 0 + nth 2 num_bins 0.
Proof.
  intros img objectBB channels mask num_bins intervals Hwf.
  apply compute_object_histogram_returns. exact Hwf.
Qed.

Lemma compute_object_histogram_never_raises_witness :
  exists h,
    compute_object_histogram hue_200_img pixel_box hsv_channels None two_bins
                             hsv_intervals
    = Ok h
    /\ length h = nth 0 two_bins 0 * nth 1 two_bins 0 + nth 2 two_bins 0.
Proof.
  apply (@compute_object_histogram_never_raises
           hue_200_img pixel_box hsv_channels None two_bins hsv_intervals).
  repeat split; repeat constructor.
Defined.

(** ** The shape and the range of the weights *)

Lemma valid_mask_in_bounds (particles : list particle) (hsv_img : image) :
  valid_mask particles hsv_img = map (fun p => in_bounds p hsv_img) particles.
Proof.
  unfold valid_mask.
  induction particles as [| p particles IH]; simpl; [reflexivity |].
  rewrite IH. reflexivity.
Qed.

Lemma traverse_length {A B} (f : A -> result B) (l : list A) (bs : list B) :
  traverse f l = Ok bs -> length bs = length l.
Proof.
  revert bs. induction l as [| a l IH]; simpl; intros bs H.
  - injection H as <-. reflexivity.
  - destruct (f a) as [b | e]; [| discriminate]. cbn [rbind] in H.
    destruct (traverse f l) as [bs' | e]; [| discriminate]. cbn [rbind] in H.
    injection H as <-. simpl. f_equal. apply IH. reflexivity.
Qed.

Lemma dist_length (color_hist : list float) (rows : list (list float))
      (width : nat) (d : list float) :
  dist color_hist rows width = Ok d -> length d = length rows.
Proof.
  unfold dist. destruct (negb _); [discriminate |].
  rewrite normalize_rows.
  destruct (traverse _ _) as [diff | e] eqn:E; [| discriminate].
  cbn [rbind]. intros H. injection H as <-.
  apply traverse_length in E. rewrite length_map in *. exact E.
Qed.


Lemma exp_nonpos_le_1 (y : R) : (y <= 0)%R -> (Rtrigo_def.exp y <= 1)%R.
Proof.
  intros [Hlt | ->].
  - left. rewrite <- exp_0. apply exp_increasing. exact Hlt.
  - rewrite exp_0. lra.
Qed.






(** ** The length of what the builder returns *)

Lemma calcHist_length (img : image) (channels : list nat) (mask : plane)
      (histSize : list nat) (ranges : list Q) (h : list nat) :
  cv2.calcHist img channels mask histSize ranges = Ok (Some h) ->
  length h = fold_right Nat.mul 1 histSize.
Proof.
  unfold cv2.calcHist.
  repeat match goal with
         | |- (if ?c then _ else _) = _ -> _ =>
             destruct c; [discriminate |]
         end.
  intros H. injection H as <-.
  rewrite length_count_pixels. apply repeat_length.
Qed.

Lemma compute_object_histogram_length (img : image) (objectBB : BB)
      (channels : list nat) (mask : option plane) (num_bins : list nat)
      (intervals : list Q) (h : list float) (b0 b1 b2 : nat) :
  getitem num_bins 0 = Ok b0 ->
  getitem num_bins 1 = Ok b1 ->
  getitem num_bins 2 = Ok b2 ->
  compute_object_histogram img objectBB channels mask num_bins intervals
  = Ok h ->
  length h = b0 * b1 + b2.
Proof.
  intros H0 H1 H2.
  destruct num_bins as [| n0 [| n1 [| n2 more]]];
    cbv in H0, H1, H2; try discriminate.
  inversion H0; inversion H1; inversion H2; subst.
  unfold compute_object_histogram. cbn [getitem nth_error rbind].
  destruct (length (cv2.split _) =? 3).
  - destruct (cv2.calcHist _ (slice_to channels 2) _ _ _) as [[hs |] | e] eqn:Ehs;
      cbn [rbind]; try discriminate;
      (destruct (cv2.calcHist _ (slice_to (slice_from channels 2) 1) _ _ _)
         as [[v |] | e] eqn:Ev; cbn [rbind cv2.flatten]; try discriminate).
    intros H. injection H as <-.
    apply calcHist_length in Ehs, Ev.
    unfold np.divide, np.concatenate.
    rewrite length_map, length_app, !length_map, Ehs, Ev. simpl. lia.
  - intros H. injection H as <-. apply repeat_length.
Qed.

Lemma renormalized_candidate_nonzero (h : list R) :
  Rsum h <> 0%R -> renormalized_candidate h = renormalized h.
Proof.
  intros Hs. unfold renormalized_candidate, renormalized.
  destruct (Req_dec_T (Rsum h) 0) as [E | _]; [contradiction | reflexivity].
Qed.

(** ** More on the model updater *)

Lemma update_run (self : classifier) (old new : list R) (u : R) :
  _color_hist self = map Fin old ->
  length new = length old ->
  update_object_histogram (map Fin new) (Fin u) self
  = (Ok tt,
     mkClassifier (_bb self) (_obj_img self) (_color_hist_params self)
       (map Fin (map2 (fun o n => (1 - u) * o + u * n)%R old new))).
Proof.
  intros Hold Hlen.
  unfold update_object_histogram, bind, getattr, lift, set_color_hist.
  rewrite Hold. unfold np.broadcast, np.scale.
  rewrite !length_map, Hlen, Nat.eqb_refl.
  change (sub (Fin 1) (Fin u)) with (Fin (1 - u)).
  cbn [fst snd]. fold (np.scale (Fin (1 - u)) (map Fin old)).
  fold (np.scale (Fin u) (map Fin new)).
  rewrite blend_fin. reflexivity.
Qed.

Lemma blend_nonneg (a b : R) (old new : list R) :
  (0 <= a)%R -> (0 <= b)%R ->
  Forall (fun x => 0 <= x)%R old -> Forall (fun x => 0 <= x)%R new ->
  Forall (fun x => 0 <= x)%R (map2 (fun o n => a * o + b * n)%R old new).
Proof.
  intros Ha Hb Hold. revert new.
  induction Hold as [| o old Ho _ IH]; intros new Hnew; simpl;
    [constructor |].
  destruct Hnew as [| n new Hn Hnew]; constructor.
  - assert (0 <= a * o)%R by (apply Rmult_le_pos; assumption).
    assert (0 <= b * n)%R by (apply Rmult_le_pos; assumption). lra.
  - apply IH. exact Hnew.
Qed.

Lemma Rsum_blend (a b : R) (old new : list R) :
  length new = length old ->
  Rsum (map2 (fun o n => a * o + b * n)%R old new)
  = (a * Rsum old + b * Rsum new)%R.
Proof.
  revert new. induction old as [| o old IH]; intros [| n new] H;
    simpl in *; try discriminate; [ring |].
  rewrite IH by lia. ring.
Qed.

(** Blending two probability mass functions of the same length with a
    factor of [0, 1] stores a probability mass function again: the
    updater needs no renormalisation on such inputs. *)
Theorem update_object_histogram_keeps_pmf :
  forall (self : classifier) (old new : list R) (u : R),
    _color_hist self = map Fin old ->
    length new = length old ->
    pmf old -> pmf new ->
    (0 <= u <= 1)%R ->
    exists blended : list R,
      update_object_histogram (map Fin new) (Fin u) self
      = (Ok tt,
         mkClassifier (_bb self) (_obj_img self) (_color_hist_params self)
                      (map Fin blended))
      /\ length blended = length old
      /\ pmf blended.
Proof.
  intros self old new u Hold Hlen [Hopos Hosum] [Hnpos Hnsum] Hu.
  exists (map2 (fun o n => (1 - u) * o + u * n)%R old new).
  split; [apply update_run; assumption |]. split.
  - apply length_map2. symmetry. exact Hlen.
  - split.
    + apply blend_nonneg; try assumption; lra.
    + rewrite Rsum_blend by exact Hlen. rewrite Hosum, Hnsum. ring.
Qed.

Lemma update_object_histogram_keeps_pmf_witness :
  exists blended : list R,
    update_object_histogram (map Fin [0; 1]%R) (Fin (1 / 2))
      (mkClassifier pixel_box [] (mkParams hsv_channels None two_bins
                                            hsv_intervals)
                    (map Fin [1; 0]%R))
    = (Ok tt,
       mkClassifier pixel_box [] (mkParams hsv_channels None two_bins
                                           hsv_intervals)
                    (map Fin blended))
    /\ length blended = length [1; 0]%R
    /\ pmf blended.
Proof.
  apply (@update_object_histogram_keeps_pmf
           (mkClassifier pixel_box [] (mkParams hsv_channels None two_bins
                                                hsv_intervals)
                         (map Fin [1; 0]%R))
           [1; 0]%R [0; 1]%R (1 / 2)%R).
  - reflexivity.
  - reflexivity.
  - split; [repeat constructor; lra | simpl; lra].
  - split; [repeat constructor; lra | simpl; lra].
  - lra.
Defined.

(** A histogram whose length differs from the reference signature's,
    neither of the two being of length one, makes the updater raise
    [ValueError]; the classifier is left as it was. *)
Theorem update_object_histogram_shape_mismatch :
  forall (self : classifier) (new_histogram : list float)
         (update_factor : float),
    length (_color_hist self) <> length new_histogram ->
    length (_color_hist self) <> 1 ->
    length new_histogram <> 1 ->
    update_object_histogram new_histogram update_factor self
    = (Raise ValueError, self).
Proof.
  intros self new_histogram update_factor Hne Ho Hn.
  unfold update_object_histogram, bind, getattr, lift.
  unfold np.broadcast, np.scale. rewrite !length_map.
  apply Nat.eqb_neq in Hne, Ho, Hn. rewrite Hne, Ho, Hn. reflexivity.
Qed.

Lemma update_object_histogram_shape_mismatch_witness :
  update_object_histogram [Fin 1; Fin 0; Fin 0] (Fin (1 / 2))
    (mkClassifier pixel_box [] (mkParams hsv_channels None two_bins
                                          hsv_intervals)
                  [Fin 1; Fin 0])
  = (Raise ValueError,
     mkClassifier pixel_box [] (mkParams hsv_channels None two_bins
                                         hsv_intervals)
                  [Fin 1; Fin 0]).
Proof.
  apply (@update_object_histogram_shape_mismatch
           (mkClassifier pixel_box [] (mkParams hsv_channels None two_bins
                                                hsv_intervals)
                         [Fin 1; Fin 0])
           [Fin 1; Fin 0; Fin 0] (Fin (1 / 2)));
    simpl; lia.
Defined.

(** Whenever the updater returns, a reference signature of more than
    one bin keeps its length, whatever histogram was blended in. *)
Theorem update_object_histogram_keeps_length :
  forall (self : classifier) (new_histogram : list float)
         (update_factor : float),
    1 < length (_color_hist self) ->
    fst (update_object_histogram new_histogram update_factor self) = Ok tt ->
    length (_color_hist
              (snd (update_object_histogram new_histogram update_factor self)))
    = length (_color_hist self).
Proof.
  intros self new_histogram update_factor Hlen.
  unfold update_object_histogram, bind, getattr, lift, set_color_hist.
  unfold np.broadcast, np.scale. rewrite !length_map.
  destruct (Nat.eqb_spec (length (_color_hist self)) (length new_histogram))
    as [E | N].
  - intros _. cbn [snd _color_hist].
    rewrite length_map2; rewrite !length_map; [reflexivity | exact E].
  - destruct (Nat.eqb_spec (length (_color_hist self)) 1) as [E1 | _];
      [lia |].
    destruct (length new_histogram =? 1).
    + intros _. cbn [snd _color_hist]. rewrite !length_map. reflexivity.
    + cbn [fst]. discriminate.
Qed.

Lemma update_object_histogram_keeps_length_witness :
  length (_color_hist
            (snd (update_object_histogram [Fin 1] (Fin (1 / 2))
                    (mkClassifier pixel_box []
                       (mkParams hsv_channels None two_bins hsv_intervals)
                       [Fin 1; Fin 0]))))
  = length (_color_hist
              (mkClassifier pixel_box []
                 (mkParams hsv_channels None two_bins hsv_intervals)
                 [Fin 1; Fin 0])).
Proof.
  apply (@update_object_histogram_keeps_length
           (mkClassifier pixel_box []
              (mkParams hsv_channels None two_bins hsv_intervals)
              [Fin 1; Fin 0])
           [Fin 1] (Fin (1 / 2))).
  - simpl; lia.
  - reflexivity.
Defined.

(** ** The parameters and the region survive every update *)

Lemma update_keeps_params (new_histogram : list float) (update_factor : float)
      (self : classifier) :
  _color_hist_params
    (snd (update_object_histogram new_histogram update_factor self))
  = _color_hist_params self
  /\ _bb (snd (update_object_histogram new_histogram update_factor self))
     = _bb self.
Proof.
  unfold update_object_histogram, bind, getattr, lift, set_color_hist.
  destruct (np.broadcast _ _ _) as [h | e]; split; reflexivity.
Qed.

Lemma run_updates_keeps_params (updates : list (list float * float))
      (self : classifier) :
  _color_hist_params (snd (run_updates updates self))
  = _color_hist_params self
  /\ _bb (snd (run_updates updates self)) = _bb self.
Proof.
  revert self. induction updates as [| [new u] updates IH]; intros self.
  - split; reflexivity.
  - cbn [run_updates]. unfold bind.
    destruct (update_keeps_params new u self) as [Hp Hb].
    destruct (update_object_histogram new u self) as [[[] | e] self'];
      cbn [snd] in *.
    + destruct (IH self') as [Hp' Hb']. split; congruence.
    + split; assumption.
Qed.

Lemma init_stores_arguments hsv_img bb hist_channels hist_mask hist_num_bins
      hist_intervals (self : classifier) :
  __init__ hsv_img bb hist_channels hist_mask hist_num_bins hist_intervals
  = Ok self ->
  _bb self = bb
  /\ _color_hist_params self
     = mkParams hist_channels hist_mask hist_num_bins hist_intervals
  /\ compute_object_histogram hsv_img bb hist_channels hist_mask
                              hist_num_bins hist_intervals
     = Ok (_color_hist self).
Proof.
  unfold __init__. cbn [params_channels params_mask params_num_bins
                        params_intervals].
  destruct (compute_object_histogram _ _ _ _ _ _) as [h | e];
    [| discriminate].
  cbn [rbind]. intros H. injection H as <-. repeat split.
Qed.

Lemma init_grey_pixel :
  __init__ grey_img pixel_box hsv_channels None two_bins hsv_intervals
  = Ok (mkClassifier pixel_box grey_img
          (mkParams hsv_channels None two_bins hsv_intervals)
          (map Fin (map (fun n => INR n / INR 1)%R [0; 0; 0; 0; 1; 0]))).
Proof.
  unfold __init__. cbn [params_channels params_mask params_num_bins
                        params_intervals].
  rewrite grey_pixel_histogram. reflexivity.
Qed.

(** After construction and any run of model updates, whether they return
    or raise, the [color_hist_params] property still returns the four
    parameters the constructor was given, and the stored region is still
    the initial bounding box. *)
Theorem color_hist_params_after_updates :
  forall (hsv_img : image) (bb : BB) (hist_channels : list nat)
         (hist_mask : option plane) (hist_num_bins : list nat)
         (hist_intervals : list Q) (self : classifier)
         (updates : list (list float * float)),
    __init__ hsv_img bb hist_channels hist_mask hist_num_bins hist_intervals
    = Ok self ->
    fst (color_hist_params_property (snd (run_updates updates self)))
    = Ok (mkParams hist_channels hist_mask hist_num_bins hist_intervals)
    /\ _bb (snd (run_updates updates self)) = bb.
Proof.
  intros hsv_img bb hist_channels hist_mask hist_num_bins hist_intervals
         self updates Hinit.
  destruct (init_stores_arguments _ _ _ _ _ _ Hinit) as (Hb & Hp & _).
  destruct (run_updates_keeps_params updates self) as [Hp' Hb'].
  unfold color_hist_params_property, getattr. cbn [fst].
  split; congruence.
Qed.

Lemma color_hist_params_after_updates_witness :
  fst (color_hist_params_property
         (snd (run_updates [([Fin 1], Fin 1); ([], Fin 0)]
                 (mkClassifier pixel_box grey_img
                    (mkParams hsv_channels None two_bins hsv_intervals)
                    (map Fin (map (fun n => INR n / INR 1)%R
                                  [0; 0; 0; 0; 1; 0]))))))
  = Ok (mkParams hsv_channels None two_bins hsv_intervals)
  /\ _bb (snd (run_updates [([Fin 1], Fin 1); ([], Fin 0)]
                 (mkClassifier pixel_box grey_img
                    (mkParams hsv_channels None two_bins hsv_intervals)
                    (map Fin (map (fun n => INR n / INR 1)%R
                                  [0; 0; 0; 0; 1; 0])))))
     = pixel_box.
Proof.
  exact (color_hist_params_after_updates
           grey_img pixel_box hsv_channels None two_bins hsv_intervals
           [([Fin 1], Fin 1); ([], Fin 0)] init_grey_pixel).
Defined.

(** ** The distance as a function of its two histograms *)

Lemma Rsum_scale (k : R) (l : list R) :
  Rsum (map (Rmult k) l) = (k * Rsum l)%R.
Proof.
  induction l as [| x l IH]; simpl; [ring | rewrite IH; ring].
Qed.

Lemma renormalized_scale (k : R) (h : list R) :
  k <> 0%R -> Rsum h <> 0%R -> renormalized (map (Rmult k) h) = renormalized h.
Proof.
  intros Hk Hs. unfold renormalized. rewrite Rsum_scale, map_map.
  apply map_ext. intros x. field. split; assumption.
Qed.

Lemma scale_nonneg (k : R) (h : list R) :
  (0 < k)%R -> Forall (fun x => 0 <= x)%R h ->
  Forall (fun x => 0 <= x)%R (map (Rmult k) h).
Proof.
  intros Hk Hh. apply Forall_map. eapply Forall_impl; [| exact Hh].
  intros x Hx. cbv beta. apply Rmult_le_pos; lra.
Qed.

(** The scorer renormalises the reference on every call (line 115), so
    a reference signature that is a positive multiple of another gives
    the same distances: an unnormalised blend scores like its
    normalisation. *)
Theorem dist_reference_scale_invariant :
  forall (k : R) (ref : list R) (cands : list (list R)) (width : nat),
    (0 < k)%R ->
    length ref = width ->
    Forall (fun c => length c = width) cands ->
    Forall (fun x => 0 <= x)%R ref ->
    Rsum ref <> 0%R ->
    Forall (Forall (fun x => 0 <= x)%R) cands ->
    dist (map Fin (map (Rmult k) ref)) (map (map Fin) cands) width
    = dist (map Fin ref) (map (map Fin) cands) width.
Proof.
  intros k ref cands width Hk Hlen Hlens Hpos Hsum Hcands.
  rewrite (dist_finite (ref := map (Rmult k) ref) (cands := cands)
                       (width := width)).
  - rewrite dist_finite by assumption.
    rewrite renormalized_scale by (try assumption; lra). reflexivity.
  - rewrite length_map. exact Hlen.
  - exact Hlens.
  - apply scale_nonneg; assumption.
  - rewrite Rsum_scale. apply Rmult_integral_contrapositive. split; [lra | exact Hsum].
  - exact Hcands.
Qed.

Lemma dist_reference_scale_invariant_witness :
  dist (map Fin (map (Rmult 3) [1; 0]%R)) (map (map Fin) [[0; 1]%R]) 2
  = dist (map Fin [1; 0]%R) (map (map Fin) [[0; 1]%R]) 2.
Proof.
  apply (@dist_reference_scale_invariant 3%R [1; 0]%R [[0; 1]%R] 2).
  - lra.
  - reflexivity.
  - repeat constructor.
  - repeat constructor; lra.
  - simpl; lra.
  - repeat constructor; lra.
Defined.

Lemma squared_differences_sym (a b : list R) :
  Rsum (map2 (fun r c => (R_sqrt.sqrt r - R_sqrt.sqrt c) ^ 2)%R a b)
  = Rsum (map2 (fun r c => (R_sqrt.sqrt r - R_sqrt.sqrt c) ^ 2)%R b a).
Proof.
  revert b. induction a as [| x a IH]; intros [| y b]; simpl; try reflexivity.
  f_equal; [ring | apply IH].
Qed.

(** Swapping which histogram is the reference and which the candidate
    does not change the distance (non-negative finite bins, non-zero
    sums, equal lengths). *)
Theorem dist_symmetric :
  forall (a b : list R) (width : nat),
    length a = width -> length b = width ->
    Forall (fun x => 0 <= x)%R a -> Forall (fun x => 0 <= x)%R b ->
    Rsum a <> 0%R -> Rsum b <> 0%R ->
    dist (map Fin a) [map Fin b] width = dist (map Fin b) [map Fin a] width.
Proof.
  intros a b width Ha Hb Hapos Hbpos Hasum Hbsum.
  change [map Fin b] with (map (map Fin) [b]).
  change [map Fin a] with (map (map Fin) [a]).
  rewrite !dist_finite; try assumption; try (repeat constructor; assumption).
  cbn [map].
  rewrite (renormalized_candidate_nonzero a Hasum).
  rewrite (renormalized_candidate_nonzero b Hbsum).
  unfold bhattacharyya_distance.
  rewrite squared_differences_sym. reflexivity.
Qed.

Lemma dist_symmetric_witness :
  dist (map Fin [1; 0]%R) [map Fin [1; 1]%R] 2
  = dist (map Fin [1; 1]%R) [map Fin [1; 0]%R] 2.
Proof.
  apply (@dist_symmetric [1; 0]%R [1; 1]%R 2);
    try reflexivity; try (repeat constructor; lra); simpl; lra.
Defined.

Lemma squared_differences_le (a b : list R) :
  Forall (fun x => 0 <= x)%R a -> Forall (fun x => 0 <= x)%R b ->
  (Rsum (map2 (fun r c => (R_sqrt.sqrt r - R_sqrt.sqrt c) ^ 2)%R a b)
   <= Rsum a + Rsum b)%R.
Proof.
  intros Ha. revert b. induction Ha as [| x a Hx Ha IH]; intros b Hb.
  - cbn [map2 Rsum]. pose proof (Rsum_nonneg Hb). lra.
  - destruct Hb as [| y b Hy Hb].
    + cbn [map2 Rsum]. pose proof (Rsum_nonneg Ha). lra.
    + cbn [map2 Rsum]. specialize (IH b Hb).
      pose proof (sqrt_sqrt x Hx) as Sx. pose proof (sqrt_sqrt y Hy) as Sy.
      pose proof (sqrt_pos x) as Px. pose proof (sqrt_pos y) as Py.
      assert (0 <= R_sqrt.sqrt x * R_sqrt.sqrt y)%R
        by (apply Rmult_le_pos; assumption).
      assert (E : ((R_sqrt.sqrt x - R_sqrt.sqrt y) ^ 2
                   = R_sqrt.sqrt x * R_sqrt.sqrt x
                     + R_sqrt.sqrt y * R_sqrt.sqrt y
                     - 2 * (R_sqrt.sqrt x * R_sqrt.sqrt y))%R) by ring.
      rewrite E, Sx, Sy. lra.
Qed.

Lemma Rsum_renormalized_candidate_le (c : list R) :
  Forall (fun x => 0 <= x)%R c -> (Rsum (renormalized_candidate c) <= 1)%R.
Proof.
  intros Hc. unfold renormalized_candidate.
  destruct (Req_dec_T (Rsum c) 0) as [E | N].
  - rewrite Rsum_div, E. lra.
  - rewrite Rsum_div. right. field. exact N.
Qed.

Lemma bhattacharyya_distance_range (ref c : list R) :
  Forall (fun x => 0 <= x)%R ref -> Rsum ref <> 0%R ->
  Forall (fun x => 0 <= x)%R c ->
  (0 <= bhattacharyya_distance (renormalized ref) (renormalized_candidate c)
   <= 1)%R.
Proof.
  intros Href Hsum Hc. unfold bhattacharyya_distance.
  set (S := Rsum _).
  assert (HS0 : (0 <= S)%R) by apply Rsum_squares_nonneg.
  assert (HS2 : (S <= 2)%R).
  { pose proof (squared_differences_le
                  (renormalized_nonneg Href Hsum)
                  (renormalized_candidate_nonneg Hc)) as H.
    rewrite (Rsum_renormalized ref Hsum) in H.
    pose proof (Rsum_renormalized_candidate_le Hc). unfold S. lra. }
  pose proof (sqrt_lt_R0 2) as H2. pose proof sqrt2_squared as H22.
  pose proof (sqrt_pos S) as HsS.
  pose proof (sqrt_le_1 S 2 HS0 ltac:(lra) HS2) as Hle.
  assert (Hinv : (0 < / R_sqrt.sqrt 2)%R) by (apply Rinv_0_lt_compat; lra).
  unfold Rdiv. rewrite Rmult_1_l. split.
  - apply Rmult_le_pos; lra.
  - apply Rmult_le_reg_l with (r := R_sqrt.sqrt 2); [lra |].
    rewrite <- Rmult_assoc, Rinv_r by lra. lra.
Qed.

Lemma gaussian_weight_range (d : R) :
  (0 <= d <= 1)%R ->
  (Rtrigo_def.exp (- 50) <= gaussian_weight d <= 1)%R.
Proof.
  intros Hd. unfold gaussian_weight.
  assert (Hq : (- d ^ 2 / (2 * (1 / 10) ^ 2) = - 50 * d ^ 2)%R)
    by (simpl; field).
  rewrite Hq. assert (0 <= d ^ 2 <= 1)%R by (simpl; nra). split.
  - destruct (Req_dec_T (d ^ 2) 1) as [E | N].
    + rewrite E. right. f_equal. lra.
    + left. apply exp_increasing. lra.
  - apply exp_nonpos_le_1. lra.
Qed.

(** Between a reference of non-negative finite bins with a non-zero sum
    and any candidate of non-negative finite bins the distance is a
    number of [0, 1], so the Gaussian weight lies between [exp (-50)]
    and 1: before masking, no candidate gets the weight 0. *)
Theorem dist_and_weight_bounded :
  forall (ref c : list R) (width : nat),
    length ref = width -> length c = width ->
    Forall (fun x => 0 <= x)%R ref -> Rsum ref <> 0%R ->
    Forall (fun x => 0 <= x)%R c ->
    exists d w : R,
      dist (map Fin ref) [map Fin c] width = Ok [Fin d]
      /\ all_weights [Fin d] = [Fin w]
      /\ (0 <= d <= 1)%R
      /\ (Rtrigo_def.exp (- 50) <= w <= 1)%R
      /\ (0 < w)%R.
Proof.
  intros ref c width Href Hc Hpos Hsum Hcpos.
  exists (bhattacharyya_distance (renormalized ref) (renormalized_candidate c)).
  exists (gaussian_weight (bhattacharyya_distance
                             (renormalized ref) (renormalized_candidate c))).
  pose proof (bhattacharyya_distance_range Hpos Hsum Hcpos) as Hd.
  pose proof (gaussian_weight_range Hd) as Hw.
  repeat split; try tauto.
  - change [map Fin c] with (map (map Fin) [c]).
    rewrite dist_finite; try assumption; try reflexivity;
      repeat constructor; assumption.
  - change [Fin ?d] with (map Fin [d]). rewrite all_weights_fin. reflexivity.
  - apply exp_pos.
Qed.

Lemma dist_and_weight_bounded_witness :
  exists d w : R,
    dist (map Fin [1; 0]%R) [map Fin [0; 1]%R] 2 = Ok [Fin d]
    /\ all_weights [Fin d] = [Fin w]
    /\ (0 <= d <= 1)%R
    /\ (Rtrigo_def.exp (- 50) <= w <= 1)%R
    /\ (0 < w)%R.
Proof.
  apply (@dist_and_weight_bounded [1; 0]%R [0; 1]%R 2);
    try reflexivity; try (repeat constructor; lra); simpl; lra.
Defined.

(** ** The scorer as a pipeline *)

(** [particle_weight] spelled out: the bin counts, one histogram per
    particle, the distances, and the masked weights. *)
Lemma particle_weight_unfold centered_on particles hsv_img mask self :
  fst (particle_weight centered_on particles hsv_img mask self)
  = (b0 <- getitem (params_num_bins (_color_hist_params self)) 0 ;;
     b1 <- getitem (params_num_bins (_color_hist_params self)) 1 ;;
     b2 <- getitem (params_num_bins (_color_hist_params self)) 2 ;;
     hs <- traverse
             (fun state : particle =>
                compute_object_histogram hsv_img
                  (centered_on (_bb self) (fst state) (snd state))
                  (params_channels (_color_hist_params self)) mask
                  (params_num_bins (_color_hist_params self))
                  (params_intervals (_color_hist_params self))) particles ;;
     d <- dist (_color_hist self) hs (b0 * b1 + b2) ;;
     Ok (map (fun w => [w])
             (map2 mul (all_weights d)
                   (map of_bool (valid_mask particles hsv_img))))).
Proof.
  unfold particle_weight.
  unfold bind at 1. unfold getattr at 1.
  unfold bind at 1, lift at 1.
  destruct (getitem _ 0) as [b0 | e]; [| reflexivity].
  unfold bind at 1, lift at 1.
  destruct (getitem _ 1) as [b1 | e]; [| reflexivity].
  unfold bind at 1, lift at 1.
  destruct (getitem _ 2) as [b2 | e]; [| reflexivity].
  unfold bind at 1. rewrite for_each_particle_hist. cbn [rbind].
  destruct (traverse _ particles) as [hs | e]; [| reflexivity].
  unfold bind at 1, getattr at 1. unfold bind at 1, lift at 1. cbn [rbind].
  destruct (dist _ _ _) as [d | e]; reflexivity.
Qed.

Lemma traverse_app {A B} (f : A -> result B) (l1 l2 : list A)
      (b1 b2 : list B) :
  traverse f l1 = Ok b1 -> traverse f l2 = Ok b2 ->
  traverse f (l1 ++ l2) = Ok (b1 ++ b2).
Proof.
  revert b1. induction l1 as [| a l1 IH]; simpl; intros b1 H1 H2.
  - injection H1 as <-. exact H2.
  - destruct (f a) as [b | e]; [| discriminate]. cbn [rbind] in *.
    destruct (traverse f l1) as [bs | e]; [| discriminate]. cbn [rbind] in *.
    injection H1 as <-. rewrite (IH bs eq_refl H2). reflexivity.
Qed.

(** The distances of a batch are those of its rows, one by one. *)
Lemma dist_rows (color_hist : list float) (rows : list (list float))
      (width : nat) :
  dist color_hist rows width
  = if negb ((length color_hist =? width) || (length color_hist =? 1)
             || (width =? 1))
    then Raise ValueError
    else traverse
           (fun r =>
              diff <- np.broadcast sub
                        (map sqrt (np.divide color_hist (np.sum color_hist)))
                        (map sqrt (np.divide r (if eq_zero (np.sum r)
                                                then Fin 1 else np.sum r))) ;;
              Ok (mul (div (Fin 1) (sqrt (Fin 2)))
                      (sqrt (np.sum (map (fun x => power x 2) diff)))))
           rows.
Proof.
  unfold dist. rewrite normalize_rows.
  replace (length (np.divide color_hist (np.sum color_hist)))
    with (length color_hist) by (unfold np.divide; rewrite length_map; reflexivity).
  destruct (negb _); [reflexivity |].
  rewrite traverse_then_map.
  induction rows as [| r rows IH]; [reflexivity |].
  cbn [map traverse]. rewrite IH. reflexivity.
Qed.

Lemma dist_app (color_hist : list float) (rows1 rows2 : list (list float))
      (width : nat) (d1 d2 : list float) :
  dist color_hist rows1 width = Ok d1 ->
  dist color_hist rows2 width = Ok d2 ->
  dist color_hist (rows1 ++ rows2) width = Ok (d1 ++ d2).
Proof.
  rewrite !dist_rows. destruct (negb _); [discriminate |].
  apply traverse_app.
Qed.

Lemma map2_app {A B C} (f : A -> B -> C) (a1 a2 : list A) (b1 b2 : list B) :
  length a1 = length b1 ->
  map2 f (a1 ++ a2) (b1 ++ b2) = map2 f a1 b1 ++ map2 f a2 b2.
Proof.
  revert b1. induction a1 as [| x a1 IH]; intros [| y b1] H; simpl in *;
    try discriminate; [reflexivity |].
  f_equal. apply IH. lia.
Qed.

(** The weight of a particle does not depend on the rest of its batch:
    scoring two batches one after the other and scoring their
    concatenation give the same weights, in the same order. *)
Theorem particle_weight_app :
  forall (centered_on : BB -> Q -> Q -> BB) (ps1 ps2 : list particle)
         (hsv_img : image) (mask : option plane) (self : classifier)
         (ws1 ws2 : list (list float)),
    fst (particle_weight centered_on ps1 hsv_img mask self) = Ok ws1 ->
    fst (particle_weight centered_on ps2 hsv_img mask self) = Ok ws2 ->
    fst (particle_weight centered_on (ps1 ++ ps2) hsv_img mask self)
    = Ok (ws1 ++ ws2).
Proof.
  intros centered_on ps1 ps2 hsv_img mask self ws1 ws2.
  rewrite !particle_weight_unfold.
  destruct (getitem _ 0) as [b0 | e]; [| discriminate].
  destruct (getitem _ 1) as [b1 | e]; [| discriminate].
  destruct (getitem _ 2) as [b2 | e]; [| discriminate].
  cbn [rbind].
  destruct (traverse _ ps1) as [hs1 | e] eqn:E1; [| discriminate].
  destruct (traverse _ ps2) as [hs2 | e] eqn:E2; [| discriminate].
  cbn [rbind].
  destruct (dist _ hs1 _) as [d1 | e] eqn:D1; [| discriminate].
  destruct (dist _ hs2 _) as [d2 | e] eqn:D2; [| discriminate].
  cbn [rbind]. intros H1 H2. injection H1 as <-. injection H2 as <-.
  rewrite (traverse_app _ _ _ E1 E2). cbn [rbind].
  rewrite (dist_app _ _ _ _ D1 D2). cbn [rbind].
  rewrite !valid_mask_in_bounds.
  unfold all_weights. rewrite !map_app, map2_app, map_app; [reflexivity |].
  rewrite !length_map.
  apply dist_length in D1. apply traverse_length in E1. congruence.
Qed.

Lemma particle_weight_app_witness :
  fst (particle_weight (fun bb _ _ => bb) ([(0%Q, 0%Q)] ++ [(1%Q, 0%Q)])
         grey_img None
         (mkClassifier empty_box []
            (mkParams hsv_channels None two_bins hsv_intervals)
            (np.zeros (2 * 2 + 2))))
  = Ok ([[NaN]] ++ [[NaN]]).
Proof.
  apply (@particle_weight_app (fun bb _ _ => bb) [(0%Q, 0%Q)] [(1%Q, 0%Q)]
           grey_img None
           (mkClassifier empty_box []
              (mkParams hsv_channels None two_bins hsv_intervals)
              (np.zeros (2 * 2 + 2)))
           [[NaN]] [[NaN]]).
  - apply (@particle_weight_zero_reference (fun bb _ _ => bb) [(0%Q, 0%Q)]
             grey_img None _ 2 2 2);
      [reflexivity | exact hsv_params_well_formed | reflexivity | simpl; lia].
  - apply (@particle_weight_zero_reference (fun bb _ _ => bb) [(1%Q, 0%Q)]
             grey_img None _ 2 2 2);
      [reflexivity | exact hsv_params_well_formed | reflexivity | simpl; lia].
Defined.

(** ** A constructed classifier can always score *)

Lemma broadcast_returns (f : float -> float -> float) (a b : list float) :
  length a = length b \/ length b = 1 ->
  exists c, np.broadcast f a b = Ok c.
Proof.
  intros H. unfold np.broadcast.
  destruct (length a =? length b) eqn:E; [eexists; reflexivity |].
  destruct (length a =? 1); [eexists; reflexivity |].
  destruct H as [H | H].
  - apply Nat.eqb_neq in E. contradiction.
  - rewrite H. eexists. reflexivity.
Qed.

Lemma traverse_returns {A B} (f : A -> result B) (l : list A) :
  Forall (fun a => exists b, f a = Ok b) l -> exists bs, traverse f l = Ok bs.
Proof.
  induction 1 as [| a l (b & Hb) _ (bs & Hbs)]; simpl.
  - eexists. reflexivity.
  - rewrite Hb, Hbs. eexists. reflexivity.
Qed.

Lemma dist_returns (color_hist : list float) (rows : list (list float))
      (width : nat) :
  length color_hist = width \/ width = 1 ->
  Forall (fun r => length r = width) rows ->
  exists d, dist color_hist rows width = Ok d.
Proof.
  intros Hw Hrows. rewrite dist_rows.
  replace (negb _) with false.
  - apply traverse_returns.
    eapply Forall_impl; [| exact Hrows].
    intros r Hr. cbv beta.
    destruct (@broadcast_returns sub
                (map sqrt (np.divide color_hist (np.sum color_hist)))
                (map sqrt (np.divide r (if eq_zero (np.sum r) then Fin 1
                                        else np.sum r)))) as (c & Hc).
    + unfold np.divide. rewrite !length_map. cbv beta in Hr. lia.
    + rewrite Hc. cbn [rbind]. eexists. reflexivity.
  - symmetry. apply negb_false_iff.
    destruct Hw as [-> | ->]; rewrite ?Nat.eqb_refl, ?orb_true_r;
      reflexivity.
Qed.

Lemma update_length (new_histogram : list float) (update_factor : float)
      (self : classifier) :
  length (_color_hist self) <> 1 ->
  length (_color_hist
            (snd (update_object_histogram new_histogram update_factor self)))
  = length (_color_hist self).
Proof.
  intros Hlen.
  unfold update_object_histogram, bind, getattr, lift, set_color_hist.
  unfold np.broadcast, np.scale. rewrite !length_map.
  destruct (Nat.eqb_spec (length (_color_hist self)) (length new_histogram))
    as [E | N].
  - cbn [snd _color_hist].
    rewrite length_map2; rewrite !length_map; [reflexivity | exact E].
  - destruct (Nat.eqb_spec (length (_color_hist self)) 1) as [E1 | _];
      [contradiction |].
    destruct (length new_histogram =? 1); cbn [snd _color_hist];
      rewrite ?length_map; reflexivity.
Qed.

Lemma run_updates_length (updates : list (list float * float))
      (self : classifier) :
  length (_color_hist self) <> 1 ->
  length (_color_hist (snd (run_updates updates self)))
  = length (_color_hist self).
Proof.
  revert self. induction updates as [| [new u] updates IH]; intros self Hlen.
  - reflexivity.
  - cbn [run_updates]. unfold bind.
    pose proof (update_length new u self Hlen) as Hu.
    destruct (update_object_histogram new u self) as [[[] | e] self'];
      cbn [snd] in *.
    + rewrite IH by congruence. exact Hu.
    + exact Hu.
Qed.

(** A classifier constructed with well-formed parameters scores every
    batch on every image without raising, also after any run of model
    updates, whether those returned or raised. *)
Theorem particle_weight_returns_after_init :
  forall (centered_on : BB -> Q -> Q -> BB) (img0 : image) (bb : BB)
         (hist_channels : list nat) (hist_mask : option plane)
         (hist_num_bins : list nat) (hist_intervals : list Q)
         (self : classifier) (updates : list (list float * float))
         (particles : list particle) (hsv_img : image)
         (mask : option plane),
    well_formed_params hist_channels hist_num_bins hist_intervals ->
    __init__ img0 bb hist_channels hist_mask hist_num_bins hist_intervals
    = Ok self ->
    exists ws,
      fst (particle_weight centered_on particles hsv_img mask
             (snd (run_updates updates self))) = Ok ws.
Proof.
  intros centered_on img0 bb hist_channels hist_mask hist_num_bins
         hist_intervals self updates particles hsv_img mask Hwf Hinit.
  destruct (init_stores_arguments _ _ _ _ _ _ Hinit) as (_ & Hp & Hh).
  destruct (run_updates_keeps_params updates self) as [Hp' _].
  rewrite Hp in Hp'.
  destruct (compute_object_histogram_returns img0 bb hist_mask Hwf)
    as (h0 & Hh0 & Hlen0).
  rewrite Hh in Hh0. injection Hh0 as Hh0.
  pose proof Hwf as (Hb & _).
  destruct hist_num_bins as [| b0 [| b1 [| b2 [| ? ?]]]]; try discriminate Hb.
  cbn [nth] in Hlen0.
  rewrite particle_weight_unfold, Hp'.
  cbn [params_num_bins params_channels params_intervals getitem nth_error
       rbind].
  destruct (@traverse_total _ _
              (fun state : particle =>
                 compute_object_histogram hsv_img
                   (centered_on (_bb (snd (run_updates updates self)))
                                (fst state) (snd state))
                   hist_channels mask [b0; b1; b2] hist_intervals)
              (fun h => length h = b0 * b1 + b2) particles)
    as (hs & Hhs & Hlens & _).
  { intros state.
    destruct (compute_object_histogram_returns hsv_img
                (centered_on (_bb (snd (run_updates updates self)))
                             (fst state) (snd state)) mask Hwf)
      as (h & Hh' & Hlen). exists h. split; assumption. }
  rewrite Hhs. cbn [rbind].
  destruct (@dist_returns (_color_hist (snd (run_updates updates self))) hs
              (b0 * b1 + b2)) as (d & Hd).
  - destruct (Nat.eq_dec (b0 * b1 + b2) 1) as [E | N]; [right; exact E |].
    left. rewrite run_updates_length;
      [rewrite Hh0; exact Hlen0 | rewrite Hh0, Hlen0; exact N].
  - exact Hlens.
  - rewrite Hd. cbn [rbind]. eexists. reflexivity.
Qed.

Lemma particle_weight_returns_after_init_witness :
  exists ws,
    fst (particle_weight (fun bb _ _ => bb) [(0%Q, 0%Q)] hue_200_img None
           (snd (run_updates [([Fin 1], Fin 1); ([], Fin 0)]
                   (mkClassifier pixel_box grey_img
                      (mkParams hsv_channels None two_bins hsv_intervals)
                      (map Fin (map (fun n => INR n / INR 1)%R
                                    [0; 0; 0; 0; 1; 0]))))))
    = Ok ws.
Proof.
  apply (@particle_weight_returns_after_init
           (fun bb _ _ => bb) grey_img pixel_box hsv_channels None two_bins
           hsv_intervals _ [([Fin 1], Fin 1); ([], Fin 0)] [(0%Q, 0%Q)]
           hue_200_img None hsv_params_well_formed init_grey_pixel).
Defined.

(** A classifier built, with well-formed parameters, on a region whose
    crop does not split into three channels -- a box of no area, a box
    outside the image -- stores the all-zero signature, and from then on
    gives the weight NaN to every particle of every batch on every
    image. *)
Theorem zero_reference_gives_nan_weights :
  forall (centered_on : BB -> Q -> Q -> BB) (img0 : image) (bb : BB)
         (hist_channels : list nat) (hist_mask : option plane)
         (b0 b1 b2 : nat) (hist_intervals : list Q)
         (particles : list particle) (hsv_img : image)
         (mask : option plane),
    well_formed_params hist_channels [b0; b1; b2] hist_intervals ->
    length (cv2.split (crop img0 (py_int (top bb)) (py_int (bottom bb))
                            (py_int (left bb)) (py_int (right bb)))) <> 3 ->
    exists self,
      __init__ img0 bb hist_channels hist_mask [b0; b1; b2] hist_intervals
      = Ok self
      /\ _color_hist self = np.zeros (b0 * b1 + b2)
      /\ fst (particle_weight centered_on particles hsv_img mask self)
         = Ok (repeat [NaN] (length particles)).
Proof.
  intros centered_on img0 bb hist_channels hist_mask b0 b1 b2 hist_intervals
         particles hsv_img mask Hwf Hsplit.
  assert (Hpos : 0 < b0 * b1 + b2).
  { destruct Hwf as (_ & Hb & _).
    inversion Hb as [| ? ? Hb0 Hb1]; subst.
    inversion Hb1 as [| ? ? _ Hb2]; subst.
    inversion Hb2 as [| ? ? Hb3 _]; subst. lia. }
  eexists. split; [| split].
  - unfold __init__. cbn [params_channels params_mask params_num_bins
                          params_intervals].
    rewrite builder_not_three_channels by exact Hsplit. reflexivity.
  - reflexivity.
  - apply (@particle_weight_zero_reference centered_on particles hsv_img mask
             _ b0 b1 b2); try reflexivity; assumption.
Qed.

Lemma zero_reference_gives_nan_weights_witness :
  exists self,
    __init__ grey_img empty_box hsv_channels None [2; 2; 2] hsv_intervals
    = Ok self
    /\ _color_hist self = np.zeros (2 * 2 + 2)
    /\ fst (particle_weight (fun bb _ _ => bb) [(0%Q, 0%Q); (5%Q, 5%Q)]
              grey_img None self)
       = Ok (repeat [NaN] (length [(0%Q, 0%Q); (5%Q, 5%Q)])).
Proof.
  apply (@zero_reference_gives_nan_weights
           (fun bb _ _ => bb) grey_img empty_box hsv_channels None 2 2 2
           hsv_intervals [(0%Q, 0%Q); (5%Q, 5%Q)] grey_img None).
  - exact hsv_params_well_formed.
  - vm_compute. intros H; discriminate H.
Defined.

(** ** Regions at and beyond the edges of the image *)

Lemma slice_empty {A} (l : list A) (i j : Z) :
  slice_index (length l) j <= slice_index (length l) i -> slice l i j = [].
Proof.
  intros H. unfold slice.
  replace (slice_index (length l) j - slice_index (length l) i) with 0 by lia.
  reflexivity.
Qed.

Lemma split_no_rows (img : image) (t b l r : Z) :
  slice_index (length img) b <= slice_index (length img) t ->
  cv2.split (crop img t b l r) = [].
Proof.
  intros H. unfold crop. rewrite (slice_empty img t b H). reflexivity.
Qed.

Lemma Forall_firstn' {A} (P : A -> Prop) (n : nat) (l : list A) :
  Forall P l -> Forall P (firstn n l).
Proof.
  intros H. revert n. induction H as [| x l Hx _ IH]; intros [| n]; simpl;
    constructor; auto.
Qed.

Lemma Forall_skipn' {A} (P : A -> Prop) (n : nat) (l : list A) :
  Forall P l -> Forall P (skipn n l).
Proof.
  intros H. revert n. induction H as [| x l Hx Hl IH]; intros [| n]; simpl;
    auto.
Qed.

Lemma Forall_slice {A} (P : A -> Prop) (l : list A) (i j : Z) :
  Forall P l -> Forall P (slice l i j).
Proof.
  intros H. unfold slice. apply Forall_firstn', Forall_skipn'. exact H.
Qed.

Lemma split_no_columns (img : image) (w : nat) (t b l r : Z) :
  rectangular img w ->
  slice_index w r <= slice_index w l ->
  cv2.split (crop img t b l r) = [].
Proof.
  intros Hrect H. unfold crop.
  assert (Hsub : Forall (fun row : list pixel => length row = w)
                        (slice img t b))
    by (apply Forall_slice; exact Hrect).
  destruct (slice img t b) as [| row rows]; [reflexivity |].
  apply Forall_inv in Hsub.
  cbn [map]. rewrite (slice_empty row l r) by (rewrite Hsub; exact H).
  reflexivity.
Qed.

Lemma slice_index_wraps (n : nat) (i j : Z) :
  (i < 0)%Z -> (0 <= j)%Z -> (j - i <= Z.of_nat n)%Z ->
  slice_index n j <= slice_index n i.
Proof.
  intros Hi Hj Hw. unfold slice_index.
  destruct (Z.ltb_spec i 0); [| lia].
  destruct (Z.ltb_spec j 0); lia.
Qed.

(** A box of no height or of no width, in rounded coordinates, gives the
    all-zero histogram of the allocated length; nothing is raised. *)
Theorem compute_object_histogram_degenerate_box :
  forall (img : image) (objectBB : BB) (channels : list nat)
         (mask : option plane) (b0 b1 b2 : nat) (more : list nat)
         (intervals : list Q),
    py_int (top objectBB) = py_int (bottom objectBB)
    \/ py_int (left objectBB) = py_int (right objectBB) ->
    compute_object_histogram img objectBB channels mask
                             (b0 :: b1 :: b2 :: more) intervals
    = Ok (np.zeros (b0 * b1 + b2)).
Proof.
  intros img objectBB channels mask b0 b1 b2 more intervals H.
  apply builder_not_three_channels.
  destruct H as [H | H].
  - rewrite split_no_rows by (rewrite H; lia). simpl. lia.
  - unfold crop. rewrite H.
    destruct (slice img _ _) as [| row rows]; [simpl; lia |].
    cbn [map]. rewrite (slice_empty row) by lia. simpl. lia.
Qed.

Lemma compute_object_histogram_degenerate_box_witness :
  compute_object_histogram grey_img empty_box hsv_channels None
                           (2 :: 2 :: 2 :: []) hsv_intervals
  = Ok (np.zeros (2 * 2 + 2)).
Proof.
  apply (@compute_object_histogram_degenerate_box
           grey_img empty_box hsv_channels None 2 2 2 [] hsv_intervals).
  left. reflexivity.
Defined.

(** A box that sticks out of the left or of the top edge of a rectangular
    image, and is no wider (no taller) than the image, is not clipped:
    its negative bound wraps around, the crop is empty, and the builder
    returns the all-zero histogram. *)
Theorem compute_object_histogram_left_top_overhang :
  forall (img : image) (w : nat) (objectBB : BB) (channels : list nat)
         (mask : option plane) (b0 b1 b2 : nat) (more : list nat)
         (intervals : list Q),
    rectangular img w ->
    ((py_int (left objectBB) < 0)%Z /\ (0 <= py_int (right objectBB))%Z
     /\ (py_int (right objectBB) - py_int (left objectBB) <= Z.of_nat w)%Z)
    \/ ((py_int (top objectBB) < 0)%Z /\ (0 <= py_int (bottom objectBB))%Z
        /\ (py_int (bottom objectBB) - py_int (top objectBB)
            <= Z.of_nat (shape0 img))%Z) ->
    compute_object_histogram img objectBB channels mask
                             (b0 :: b1 :: b2 :: more) intervals
    = Ok (np.zeros (b0 * b1 + b2)).
Proof.
  intros img w objectBB channels mask b0 b1 b2 more intervals Hrect H.
  apply builder_not_three_channels.
  destruct H as [(Hl & Hr & Hw) | (Ht & Hb & Hh)].
  - rewrite (split_no_columns _ _ _ _ Hrect)
      by (apply slice_index_wraps; assumption).
    simpl. lia.
  - rewrite split_no_rows by (apply slice_index_wraps; assumption).
    simpl. lia.
Qed.

Lemma compute_object_histogram_left_top_overhang_witness :
  compute_object_histogram grey_row_img (mkBB 0 1 (- (1 # 1)) (1 # 1))
                           hsv_channels None (2 :: 2 :: 2 :: [])
                           hsv_intervals
  = Ok (np.zeros (2 * 2 + 2)).
Proof.
  apply (@compute_object_histogram_left_top_overhang
           grey_row_img 3 (mkBB 0 1 (- (1 # 1)) (1 # 1)) hsv_channels None
           2 2 2 [] hsv_intervals).
  - repeat constructor.
  - left. vm_compute. intuition discriminate.
Defined.

Lemma py_int_inject_Z (z : Z) : py_int (inject_Z z) = z.
Proof. unfold py_int, inject_Z. simpl. apply Z.quot_1_r. Qed.

Lemma slice_index_clamped (n : nat) (j : Z) :
  (0 <= j)%Z -> slice_index n (Z.min j (Z.of_nat n)) = slice_index n j.
Proof.
  intros Hj. unfold slice_index.
  destruct (Z.ltb_spec (Z.min j (Z.of_nat n)) 0); [lia |].
  destruct (Z.ltb_spec j 0); lia.
Qed.

Lemma slice_clamped {A} (l : list A) (n : nat) (i j : Z) :
  length l = n -> (0 <= j)%Z -> slice l i (Z.min j (Z.of_nat n)) = slice l i j.
Proof.
  intros Hn Hj. unfold slice. rewrite Hn, slice_index_clamped by exact Hj.
  reflexivity.
Qed.

Lemma crop_clamped (img : image) (w : nat) (t b l r : Z) :
  rectangular img w -> (0 <= b)%Z -> (0 <= r)%Z ->
  crop img t (Z.min b (Z.of_nat (shape0 img))) l (Z.min r (Z.of_nat w))
  = crop img t b l r.
Proof.
  intros Hrect Hb Hr. unfold crop, shape0.
  rewrite (@slice_clamped _ img (length img) t b eq_refl Hb).
  apply map_ext_in. intros row Hin.
  apply slice_clamped; [| exact Hr].
  pose proof (@Forall_slice _ _ img t b Hrect) as Hsub.
  rewrite Forall_forall in Hsub. apply Hsub. exact Hin.
Qed.

(** A box that sticks out of the right or of the bottom edge of a
    rectangular image is clipped to the image: the builder returns what
    it returns for the box cut at those edges. *)
Theorem compute_object_histogram_right_bottom_clipped :
  forall (img : image) (w : nat) (t b l r : Z) (channels : list nat)
         (mask : option plane) (num_bins : list nat) (intervals : list Q),
    rectangular img w ->
    (0 <= b)%Z -> (0 <= r)%Z ->
    compute_object_histogram img
      (int_box t (Z.min b (Z.of_nat (shape0 img))) l (Z.min r (Z.of_nat w)))
      channels mask num_bins intervals
    = compute_object_histogram img (int_box t b l r) channels mask num_bins
                               intervals.
Proof.
  intros img w t b l r channels mask num_bins intervals Hrect Hb Hr.
  unfold compute_object_histogram, int_box. cbn [top bottom left right].
  rewrite !py_int_inject_Z. rewrite (@crop_clamped img w t b l r Hrect Hb Hr).
  reflexivity.
Qed.

Lemma compute_object_histogram_right_bottom_clipped_witness :
  compute_object_histogram grey_row_img
    (int_box 0 (Z.min 7 (Z.of_nat (shape0 grey_row_img))) 1
             (Z.min 9 (Z.of_nat 3)))
    hsv_channels None two_bins hsv_intervals
  = compute_object_histogram grey_row_img (int_box 0 7 1 9) hsv_channels None
                             two_bins hsv_intervals.
Proof.
  apply (@compute_object_histogram_right_bottom_clipped
           grey_row_img 3 0%Z 7%Z 1%Z 9%Z hsv_channels None two_bins
           hsv_intervals).
  - repeat constructor.
  - lia.
  - lia.
Defined.

(** ** Every pixel that has a bin is counted once *)

Lemma bin_index_lt (v : Z) (sz : nat) (r : Q * Q) (i : nat) :
  cv2.bin_index v sz r = Some i -> i < sz.
Proof.
  unfold cv2.bin_index. destruct (ieee.floor _) as [idx |]; [| discriminate].
  destruct (Z.leb_spec 0 idx); destruct (Z.ltb_spec idx (Z.of_nat sz));
    cbn [andb]; try discriminate.
  intros E. injection E as <-. lia.
Qed.

Lemma list_sum_incr (k : nat) (h : list nat) :
  k < length h -> list_sum (cv2.incr k h) = S (list_sum h).
Proof.
  revert k. induction h as [| c h IH]; intros [| k] Hk; simpl in *;
    try lia.
  rewrite IH by lia. lia.
Qed.

Lemma list_sum_repeat_0 (n : nat) : list_sum (repeat 0 n) = 0.
Proof. induction n as [| n IH]; simpl; [reflexivity | exact IH]. Qed.

(** Counting the pixels of a list under a mask that is a function of
    the pixel: every masked-in pixel that has a bin adds one. *)
Lemma count_pixels_sum (chans sizes : list nat) (ranges : list (Q * Q))
      (g : pixel -> Z) (l : list pixel) (h : list nat) :
  Forall (fun p => (g p =? 0)%Z = false ->
                   exists k, cv2.flat_bin p chans sizes ranges 0 = Some k
                             /\ k < length h) l ->
  list_sum (fold_left (cv2.count_pixel chans sizes ranges)
                      (map (fun p => (p, g p)) l) h)
  = list_sum h + length (filter (fun p => negb (g p =? 0)%Z) l).
Proof.
  intros Hl. revert h Hl. induction l as [| p l IH]; intros h Hl.
  - simpl. lia.
  - inversion Hl as [| ? ? Hp Hl']; subst.
    cbn [map fold_left filter]. unfold cv2.count_pixel at 2. cbn [fst snd].
    destruct (g p =? 0)%Z; cbn [negb].
    + apply IH. exact Hl'.
    + destruct (Hp eq_refl) as (k & Hk & Hlt). rewrite Hk, IH.
      * rewrite list_sum_incr by exact Hlt. simpl. lia.
      * rewrite length_incr. exact Hl'.
Qed.

Lemma map2_map_map {A B C D} (f : B -> C -> D) (a : A -> B) (b : A -> C)
      (l : list A) :
  map2 f (map a l) (map b l) = map (fun x => f (a x) (b x)) l.
Proof.
  induction l as [| x l IH]; simpl; [reflexivity | rewrite IH; reflexivity].
Qed.

Lemma combine_map_same {A B} (g : A -> B) (l : list A) :
  combine l (map g l) = map (fun x => (x, g x)) l.
Proof.
  induction l as [| x l IH]; simpl; [reflexivity | rewrite IH; reflexivity].
Qed.

Lemma concat_map_map {A B} (g : A -> B) (m : list (list A)) :
  concat (map (map g) m) = map g (concat m).
Proof.
  induction m as [| row m IH]; simpl; [reflexivity |].
  rewrite IH, map_app. reflexivity.
Qed.

(** The two masks the builder derives, pixel by pixel. *)
Lemma derived_masks (m : image) :
  length (cv2.split m) = 3 ->
  cv2.bitwise_and (cv2.threshold (nth 0 (cv2.split m) []) 25 255)
                  (cv2.threshold (nth 1 (cv2.split m) []) 51 255)
  = map (map (fun p => if chromatic p then 255%Z else 0%Z)) m
  /\ cv2.bitwise_xor
       (cv2.bitwise_and (cv2.threshold (nth 0 (cv2.split m) []) 25 255)
                        (cv2.threshold (nth 1 (cv2.split m) []) 51 255))
       (map (map (fun _ : Z => 255%Z))
            (cv2.threshold (nth 0 (cv2.split m) []) 25 255))
     = map (map (fun p => if chromatic p then 0%Z else 255%Z)) m.
Proof.
  intros H3. pose proof (split_three_channels _ H3) as Hcn.
  unfold cv2.split in *. destruct (cv2.empty m); [discriminate H3 |].
  rewrite Hcn. cbn [seq map nth].
  unfold cv2.threshold, cv2.bitwise_and, cv2.bitwise_xor.
  rewrite !map_map.
  assert (Hand : map2 (map2 Z.land)
                   (map (fun row : list pixel =>
                           map (fun v : Z => if (25 <? v)%Z then 255%Z
                                             else 0%Z)
                               (map (fun p : pixel => nth 0 p 0%Z) row)) m)
                   (map (fun row : list pixel =>
                           map (fun v : Z => if (51 <? v)%Z then 255%Z
                                             else 0%Z)
                               (map (fun p : pixel => nth 1 p 0%Z) row)) m)
                 = map (map (fun p => if chromatic p then 255%Z else 0%Z)) m).
  { rewrite map2_map_map. apply map_ext. intros row.
    rewrite !map_map, map2_map_map. apply map_ext. intros p.
    unfold chromatic.
    destruct (25 <? nth 0 p 0)%Z; destruct (51 <? nth 1 p 0)%Z; reflexivity. }
  split; [exact Hand |].
  rewrite Hand, map2_map_map. apply map_ext. intros row.
  rewrite !map_map, map2_map_map. apply map_ext. intros p.
  destruct (chromatic p); reflexivity.
Qed.

Lemma calcHist_eq (img : image) (channels : list nat) (mask : plane)
      (histSize : list nat) (ranges : list Q) :
  0 < length histSize ->
  length ranges = 2 * length histSize ->
  length channels = length histSize ->
  forallb (fun c => c <? cv2.channels_of img) channels = true ->
  forallb cv2.range_ok (cv2.ranges_of ranges) = true ->
  fold_right Nat.mul 1 histSize <> 0 ->
  cv2.calcHist img channels mask histSize ranges
  = Ok (Some (fold_left
                (cv2.count_pixel channels histSize (cv2.ranges_of ranges))
                (combine (concat img) (concat mask))
                (repeat 0 (fold_right Nat.mul 1 histSize)))).
Proof.
  intros Hdims Hr Hc Hchans Hranges Hbins. unfold cv2.calcHist.
  apply Nat.ltb_lt in Hdims. rewrite Hdims. cbn [negb].
  rewrite Hr, Nat.eqb_refl. cbn [orb negb].
  rewrite Hc, Nat.eqb_refl. cbn [orb negb].
  apply Nat.ltb_lt in Hdims.
  replace (length histSize =? 0) with false
    by (symmetry; apply Nat.eqb_neq; lia).
  replace (2 * length histSize =? 0) with false
    by (symmetry; apply Nat.eqb_neq; lia).
  rewrite Hchans, Hranges. cbn [negb].
  apply Nat.eqb_neq in Hbins. rewrite Hbins. reflexivity.
Qed.

Lemma length_filter_split {A} (f : A -> bool) (l : list A) :
  length (filter f l) + length (filter (fun x => negb (f x)) l) = length l.
Proof.
  induction l as [| x l IH]; simpl; [reflexivity |].
  destruct (f x); simpl; lia.
Qed.

Lemma Rsum_frequencies (l : list nat) (n : R) :
  Rsum (map (fun k => INR k / n)%R l) = (INR (list_sum l) / n)%R.
Proof.
  rewrite <- (map_map INR (fun x => x / n)%R), Rsum_div, Rsum_INR.
  reflexivity.
Qed.

Lemma frequencies_nonneg (l : list nat) (n : nat) :
  0 < n -> Forall (fun x => 0 <= x)%R (map (fun k => INR k / INR n)%R l).
Proof.
  intros Hn. apply Forall_map. apply Forall_forall. intros k _.
  apply div_nonneg; [apply pos_INR | apply lt_0_INR; exact Hn].
Qed.

Lemma has_chromatic_bin (c0 c1 c2 b0 b1 b2 : nat) (l0 h0 l1 h1 l2 h2 : Q)
      (p : pixel) :
  has_bin [c0; c1; c2] [b0; b1; b2] [l0; h0; l1; h1; l2; h2] p = true ->
  chromatic p = true ->
  exists k, cv2.flat_bin p [c0; c1] [b0; b1] [(l0, h0); (l1, h1)] 0 = Some k
            /\ k < b0 * b1.
Proof.
  unfold has_bin. intros H Hp. rewrite Hp in H.
  unfold slice_to, slice_from in H. simpl firstn in H.
  cbn [cv2.ranges_of cv2.flat_bin] in *.
  destruct (cv2.bin_index (nth c0 p 0%Z) b0 (l0, h0)) as [i0 |] eqn:E0;
    [| discriminate H].
  destruct (cv2.bin_index (nth c1 p 0%Z) b1 (l1, h1)) as [i1 |] eqn:E1;
    [| discriminate H].
  apply bin_index_lt in E0, E1.
  eexists. split; [reflexivity | nia].
Qed.

Lemma has_achromatic_bin (c0 c1 c2 b0 b1 b2 : nat) (l0 h0 l1 h1 l2 h2 : Q)
      (p : pixel) :
  has_bin [c0; c1; c2] [b0; b1; b2] [l0; h0; l1; h1; l2; h2] p = true ->
  chromatic p = false ->
  exists k, cv2.flat_bin p [c2] [b2] [(l2, h2)] 0 = Some k /\ k < b2.
Proof.
  unfold has_bin. intros H Hp. rewrite Hp in H.
  unfold slice_to, slice_from in H. simpl firstn in H. simpl skipn in H.
  cbn [cv2.ranges_of cv2.flat_bin] in *.
  destruct (cv2.bin_index (nth c2 p 0%Z) b2 (l2, h2)) as [i2 |] eqn:E2;
    [| discriminate H].
  apply bin_index_lt in E2.
  eexists. split; [reflexivity | lia].
Qed.

Lemma builder_counts_every_pixel :
  forall (img : image) (objectBB : BB) (c0 c1 c2 : nat)
         (mask : option plane) (b0 b1 b2 : nat) (l0 h0 l1 h1 l2 h2 : Q),
    let obj_image :=
      crop img (py_int (top objectBB)) (py_int (bottom objectBB))
           (py_int (left objectBB)) (py_int (right objectBB)) in
    let pixels := concat obj_image in
    length (cv2.split obj_image) = 3 ->
    well_formed_params [c0; c1; c2] [b0; b1; b2] [l0; h0; l1; h1; l2; h2] ->
    Forall (fun p => has_bin [c0; c1; c2] [b0; b1; b2]
                             [l0; h0; l1; h1; l2; h2] p = true) pixels ->
    exists h : list R,
      compute_object_histogram img objectBB [c0; c1; c2] mask [b0; b1; b2]
                               [l0; h0; l1; h1; l2; h2]
      = Ok (map Fin h)
      /\ length h = b0 * b1 + b2
      /\ pmf h
      /\ Rsum (firstn (b0 * b1) h)
         = (INR (length (filter chromatic pixels)) / INR (length pixels))%R.
Proof.
  intros img objectBB c0 c1 c2 mask b0 b1 b2 l0 h0 l1 h1 l2 h2 obj_image
         pixels H3 (_ & Hpos & _ & Hlt & _ & Hr) Hin.
  inversion Hpos as [| ? ? Hb0 Hpos1]; subst.
  inversion Hpos1 as [| ? ? Hb1 Hpos2]; subst.
  inversion Hpos2 as [| ? ? Hb2 _]; subst.
  inversion Hlt as [| ? ? Hc0 Hlt1]; subst.
  inversion Hlt1 as [| ? ? Hc1 Hlt2]; subst.
  inversion Hlt2 as [| ? ? Hc2 _]; subst.
  cbn [cv2.ranges_of forallb] in Hr.
  apply andb_true_iff in Hr. destruct Hr as [R0 Hr].
  apply andb_true_iff in Hr. destruct Hr as [R1 Hr].
  apply andb_true_iff in Hr. destruct Hr as [R2 _].
  pose proof (split_three_channels _ H3) as Hcn.
  destruct (derived_masks _ H3) as [HmaskHS HmaskV].
  (* the crop holds a pixel *)
  assert (Hpix : 0 < length pixels).
  { unfold pixels. unfold cv2.split in H3.
    destruct obj_image as [| [| p row] rows]; try discriminate H3.
    simpl. lia. }
  apply Nat.ltb_lt in Hc0, Hc1, Hc2.
  (* the chromatic histogram *)
  assert (Hhs : cv2.calcHist obj_image [c0; c1]
                  (map (map (fun p => if chromatic p then 255%Z else 0%Z))
                       obj_image)
                  [b0; b1] [l0; h0; l1; h1]
                = Ok (Some (fold_left
                        (cv2.count_pixel [c0; c1] [b0; b1]
                                         [(l0, h0); (l1, h1)])
                        (map (fun p => (p, if chromatic p then 255%Z
                                           else 0%Z)) pixels)
                        (repeat 0 (b0 * (b1 * 1)))))).
  { rewrite calcHist_eq; try reflexivity.
    - rewrite concat_map_map, combine_map_same. reflexivity.
    - simpl; lia.
    - cbn [forallb]. rewrite Hcn, Hc0, Hc1. reflexivity.
    - cbn [cv2.ranges_of forallb]. rewrite R0, R1. reflexivity.
    - cbn [fold_right]. nia. }
  assert (Hv : cv2.calcHist obj_image [c2]
                 (map (map (fun p => if chromatic p then 0%Z else 255%Z))
                      obj_image)
                 [b2] [l2; h2]
               = Ok (Some (fold_left
                       (cv2.count_pixel [c2] [b2] [(l2, h2)])
                       (map (fun p => (p, if chromatic p then 0%Z
                                          else 255%Z)) pixels)
                       (repeat 0 (b2 * 1))))).
  { rewrite calcHist_eq; try reflexivity.
    - rewrite concat_map_map, combine_map_same. reflexivity.
    - simpl; lia.
    - cbn [forallb]. rewrite Hcn, Hc2. reflexivity.
    - cbn [cv2.ranges_of forallb]. rewrite R2. reflexivity.
    - cbn [fold_right]. lia. }
  set (hs := fold_left (cv2.count_pixel [c0; c1] [b0; b1]
                                        [(l0, h0); (l1, h1)]) _ _) in Hhs.
  set (v := fold_left (cv2.count_pixel [c2] [b2] [(l2, h2)]) _ _) in Hv.
  assert (Lhs : length hs = b0 * b1).
  { unfold hs. rewrite length_count_pixels, repeat_length. lia. }
  assert (Lv : length v = b2).
  { unfold v. rewrite length_count_pixels, repeat_length. lia. }
  assert (Shs : list_sum hs = length (filter chromatic pixels)).
  { unfold hs. rewrite count_pixels_sum.
    - rewrite list_sum_repeat_0. cbn [Nat.add]. f_equal.
      apply filter_ext. intros p. destruct (chromatic p); reflexivity.
    - eapply Forall_impl; [| exact Hin].
      intros p Hp Hm.
      destruct (chromatic p) eqn:Ep; [| discriminate Hm].
      destruct (has_chromatic_bin _ _ _ _ _ _ _ _ _ _ _ _ _ Hp Ep)
        as (k & Hk & Hlt').
      exists k. split; [exact Hk |]. rewrite repeat_length. lia. }
  assert (Sv : list_sum v
               = length (filter (fun p => negb (chromatic p)) pixels)).
  { unfold v. rewrite count_pixels_sum.
    - rewrite list_sum_repeat_0. cbn [Nat.add]. f_equal.
      apply filter_ext. intros p. destruct (chromatic p); reflexivity.
    - eapply Forall_impl; [| exact Hin].
      intros p Hp Hm.
      destruct (chromatic p) eqn:Ep; [discriminate Hm |].
      destruct (has_achromatic_bin _ _ _ _ _ _ _ _ _ _ _ _ _ Hp Ep)
        as (k & Hk & Hlt').
      exists k. split; [exact Hk |]. rewrite repeat_length. lia. }
  assert (Stot : list_sum (hs ++ v) = length pixels).
  { rewrite list_sum_app, Shs, Sv. apply length_filter_split. }
  exists (map (fun n => INR n / INR (length pixels))%R (hs ++ v)).
  split; [| split; [| split]].
  - rewrite (@builder_three_channels img objectBB [c0; c1; c2] mask
               [l0; h0; l1; h1; l2; h2] b0 b1 b2 [] hs v H3).
    + rewrite divide_counts_pos by (rewrite Stot; exact Hpix).
      rewrite Stot. reflexivity.
    + fold obj_image. rewrite HmaskHS. exact Hhs.
    + fold obj_image. rewrite HmaskV. exact Hv.
  - rewrite length_map, length_app, Lhs, Lv. reflexivity.
  - split.
    + apply frequencies_nonneg. exact Hpix.
    + rewrite Rsum_frequencies, Stot. field.
      apply not_0_INR. lia.
  - rewrite <- Lhs, firstn_map, firstn_app, Nat.sub_diag, firstn_all.
    cbn [firstn]. rewrite app_nil_r, Rsum_frequencies, Shs. reflexivity.
Qed.

(** When the crop has three channels, the parameters are well formed and
    every pixel of the crop falls into a bin of the histogram it belongs
    to -- a chromatic pixel into a bin of the chromatic histogram, any
    other into a bin of the achromatic one, the bin being the one OpenCV
    computes from the [float] bounds -- every pixel is counted exactly
    once.  The histogram is then a probability mass function (no NaN),
    and its chromatic part weighs the fraction of chromatic pixels. *)
Theorem compute_object_histogram_counts_every_pixel :
  forall (img : image) (objectBB : BB) (c0 c1 c2 : nat)
         (mask : option plane) (b0 b1 b2 : nat) (l0 h0 l1 h1 l2 h2 : Q),
    let obj_image :=
      crop img (py_int (top objectBB)) (py_int (bottom objectBB))
           (py_int (left objectBB)) (py_int (right objectBB)) in
    let pixels := concat obj_image in
    length (cv2.split obj_image) = 3 ->
    well_formed_params [c0; c1; c2] [b0; b1; b2] [l0; h0; l1; h1; l2; h2] ->
    Forall (fun p => has_bin [c0; c1; c2] [b0; b1; b2]
                             [l0; h0; l1; h1; l2; h2] p = true) pixels ->
    exists h : list R,
      compute_object_histogram img objectBB [c0; c1; c2] mask [b0; b1; b2]
                               [l0; h0; l1; h1; l2; h2]
      = Ok (map Fin h)
      /\ length h = b0 * b1 + b2
      /\ pmf h
      /\ Rsum (firstn (b0 * b1) h)
         = (INR (length (filter chromatic pixels)) / INR (length pixels))%R.
Proof.
  intros img objectBB c0 c1 c2 mask b0 b1 b2 l0 h0 l1 h1 l2 h2 obj_image
         pixels H3 Hwf Hin.
  apply builder_counts_every_pixel; assumption.
Qed.

(** The row of three pixels: one chromatic pixel out of three. *)
Lemma compute_object_histogram_counts_every_pixel_witness :
  exists h : list R,
    compute_object_histogram grey_row_img (int_box 0 1 0 3) [0; 1; 2] None
                             [2; 2; 2] [0; 180; 0; 256; 0; 256]%Q
    = Ok (map Fin h)
    /\ length h = 2 * 2 + 2
    /\ pmf h
    /\ Rsum (firstn (2 * 2) h)
       = (INR (length (filter chromatic
                         (concat (crop grey_row_img
                                       (py_int (top (int_box 0 1 0 3)))
                                       (py_int (bottom (int_box 0 1 0 3)))
                                       (py_int (left (int_box 0 1 0 3)))
                                       (py_int (right (int_box 0 1 0 3)))))))
          / INR (length
                   (concat (crop grey_row_img
                                 (py_int (top (int_box 0 1 0 3)))
                                 (py_int (bottom (int_box 0 1 0 3)))
                                 (py_int (left (int_box 0 1 0 3)))
                                 (py_int (right (int_box 0 1 0 3)))))))%R.
Proof.
  apply (@compute_object_histogram_counts_every_pixel
           grey_row_img (int_box 0 1 0 3) 0 1 2 None 2 2 2
           0%Q 180%Q 0%Q 256%Q 0%Q 256%Q).
  - reflexivity.
  - repeat split; repeat constructor.
  - check_pixels.
Defined.

(** ** Scoring an image whose pixels all have a bin *)

Lemma Forall_concat {A} (P : A -> Prop) (m : list (list A)) :
  Forall (Forall P) m -> Forall P (concat m).
Proof.
  induction 1 as [| row m Hrow _ IH]; simpl; [constructor |].
  apply Forall_app. split; assumption.
Qed.

Lemma Forall_crop (P : pixel -> Prop) (img : image) (t b l r : Z) :
  Forall (Forall P) img -> Forall (Forall P) (crop img t b l r).
Proof.
  intros H. unfold crop. apply Forall_map.
  eapply Forall_impl; [| apply Forall_slice; exact H].
  intros row Hrow. apply Forall_slice. exact Hrow.
Qed.

Lemma finite_rows (P : list R -> Prop) (hs : list (list float)) :
  Forall (fun h => exists c, h = map Fin c /\ P c) hs ->
  exists cands, hs = map (map Fin) cands /\ Forall P cands.
Proof.
  induction 1 as [| h hs (c & -> & Pc) _ (cands & -> & Hc)].
  - exists []. split; [reflexivity | constructor].
  - exists (c :: cands). split; [reflexivity | constructor; assumption].
Qed.

Lemma zeros_fin (n : nat) : np.zeros n = map Fin (repeat 0%R n).
Proof. unfold np.zeros. rewrite map_repeat. reflexivity. Qed.

(** On such an image the builder returns, for every region, a vector of
    non-negative numbers of the allocated length. *)
Lemma builder_finite (img : image) (objectBB : BB) (c0 c1 c2 : nat)
      (mask : option plane) (b0 b1 b2 : nat) (l0 h0 l1 h1 l2 h2 : Q) :
  well_formed_params [c0; c1; c2] [b0; b1; b2] [l0; h0; l1; h1; l2; h2] ->
  Forall (Forall (fun p => has_bin [c0; c1; c2] [b0; b1; b2]
                                   [l0; h0; l1; h1; l2; h2] p = true)) img ->
  exists h : list R,
    compute_object_histogram img objectBB [c0; c1; c2] mask [b0; b1; b2]
                             [l0; h0; l1; h1; l2; h2]
    = Ok (map Fin h)
    /\ length h = b0 * b1 + b2
    /\ Forall (fun x => 0 <= x)%R h.
Proof.
  intros Hwf Himg.
  destruct (Nat.eq_dec
              (length (cv2.split (crop img (py_int (top objectBB))
                                       (py_int (bottom objectBB))
                                       (py_int (left objectBB))
                                       (py_int (right objectBB))))) 3)
    as [E3 | N3].
  - destruct (@builder_counts_every_pixel img objectBB c0 c1 c2 mask
                b0 b1 b2 l0 h0 l1 h1 l2 h2 E3 Hwf)
      as (h & Hh & Hlen & [Hpos _] & _).
    + apply Forall_concat, Forall_crop. exact Himg.
    + exists h. repeat split; assumption.
  - exists (repeat 0%R (b0 * b1 + b2)). split; [| split].
    + rewrite <- zeros_fin. apply builder_not_three_channels. exact N3.
    + apply repeat_length.
    + apply Forall_forall. intros x Hx. apply repeat_spec in Hx. lra.
Qed.

Lemma masked_finite_weights (hsv_img : image) (ref : list R)
      (particles : list particle) (cands : list (list R)) :
  Forall (fun x => 0 <= x)%R ref -> Rsum ref <> 0%R ->
  Forall (Forall (fun x => 0 <= x)%R) cands ->
  length cands = length particles ->
  Forall2
    (fun p row =>
       exists w : R,
         row = [Fin w]
         /\ (in_bounds p hsv_img = false -> w = 0%R)
         /\ (in_bounds p hsv_img = true ->
             (Rtrigo_def.exp (- 50) <= w <= 1)%R))
    particles
    (map (fun w => [w])
         (map2 mul
               (map Fin
                    (map gaussian_weight
                         (map (fun c => bhattacharyya_distance
                                          (renormalized ref)
                                          (renormalized_candidate c))
                              cands)))
               (map of_bool (map (fun p => in_bounds p hsv_img) particles)))).
Proof.
  intros Href Hsum Hcands. revert particles.
  induction Hcands as [| c cands Hc _ IH]; intros [| p particles] Hlen;
    simpl in Hlen; try discriminate.
  - constructor.
  - cbn [map map2]. constructor.
    + eexists. split; [reflexivity |].
      pose proof (gaussian_weight_range
                    (bhattacharyya_distance_range Href Hsum Hc)) as Hw.
      split; intros ->; lra.
    + apply IH. lia.
Qed.

(** When the parameters are well formed, every pixel of the image falls
    into a bin of the histogram it belongs to (the bin OpenCV computes
    from the [float] bounds), and the reference signature has
    non-negative finite bins with a non-zero sum, the scorer returns a
    number for every particle: exactly 0 when the particle's centre is
    outside the image, and between [exp (-50)] and 1 when it is inside.
    No weight is NaN. *)
Theorem particle_weight_on_in_range_image :
  forall (centered_on : BB -> Q -> Q -> BB) (particles : list particle)
         (hsv_img : image) (mask hist_mask : option plane)
         (self : classifier) (c0 c1 c2 b0 b1 b2 : nat)
         (l0 h0 l1 h1 l2 h2 : Q) (ref : list R),
    _color_hist_params self
    = mkParams [c0; c1; c2] hist_mask [b0; b1; b2]
               [l0; h0; l1; h1; l2; h2] ->
    well_formed_params [c0; c1; c2] [b0; b1; b2] [l0; h0; l1; h1; l2; h2] ->
    _color_hist self = map Fin ref ->
    length ref = b0 * b1 + b2 ->
    Forall (fun x => 0 <= x)%R ref ->
    Rsum ref <> 0%R ->
    Forall (Forall (fun p => has_bin [c0; c1; c2] [b0; b1; b2]
                                     [l0; h0; l1; h1; l2; h2] p = true))
           hsv_img ->
    exists ws,
      fst (particle_weight centered_on particles hsv_img mask self) = Ok ws
      /\ Forall2
           (fun p row =>
              exists w : R,
                row = [Fin w]
                /\ (in_bounds p hsv_img = false -> w = 0%R)
                /\ (in_bounds p hsv_img = true ->
                    (Rtrigo_def.exp (- 50) <= w <= 1)%R))
           particles ws.
Proof.
  intros centered_on particles hsv_img mask hist_mask self c0 c1 c2 b0 b1 b2
         l0 h0 l1 h1 l2 h2 ref Hp Hwf Href Hlen Hpos Hsum Himg.
  rewrite particle_weight_unfold, Hp, Href.
  cbn [params_num_bins params_channels params_intervals getitem nth_error
       rbind].
  destruct (@traverse_total _ _
              (fun state : particle =>
                 compute_object_histogram hsv_img
                   (centered_on (_bb self) (fst state) (snd state))
                   [c0; c1; c2] mask [b0; b1; b2]
                   [l0; h0; l1; h1; l2; h2])
              (fun h => exists c, h = map Fin c
                                  /\ (length c = b0 * b1 + b2
                                      /\ Forall (fun x => 0 <= x)%R c))
              particles)
    as (hs & Hhs & Hfin & Hcount).
  { intros state.
    destruct (@builder_finite hsv_img
                (centered_on (_bb self) (fst state) (snd state))
                c0 c1 c2 mask b0 b1 b2 l0 h0 l1 h1 l2 h2 Hwf Himg)
      as (h & Hh & Hl & Hn).
    exists (map Fin h). split; [exact Hh |]. exists h. repeat split; assumption. }
  destruct (finite_rows _ Hfin) as (cands & -> & Hcands).
  rewrite Hhs. cbn [rbind].
  rewrite dist_finite; try assumption.
  - cbn [rbind]. eexists. split; [reflexivity |].
    rewrite <- (map_map _ Fin), all_weights_fin, valid_mask_in_bounds.
    apply masked_finite_weights; try assumption.
    + eapply Forall_impl; [| exact Hcands]. intros c [_ H]. exact H.
    + rewrite length_map in Hcount. exact Hcount.
  - eapply Forall_impl; [| exact Hcands]. intros c [H _]. exact H.
  - eapply Forall_impl; [| exact Hcands]. intros c [_ H]. exact H.
Qed.

Lemma particle_weight_on_in_range_image_witness :
  exists ws,
    fst (particle_weight (fun bb x y => int_box 0 1 (Qfloor x) (Qfloor x + 1))
           [(1%Q, 0%Q); (7%Q, 0%Q)] grey_row_img None
           (mkClassifier pixel_box grey_img
              (mkParams [0; 1; 2] None [2; 2; 2]
                        [0; 180; 0; 256; 0; 256]%Q)
              (map Fin [0; 0; 0; 0; 1; 0]%R)))
    = Ok ws
    /\ Forall2
         (fun p row =>
            exists w : R,
              row = [Fin w]
              /\ (in_bounds p grey_row_img = false -> w = 0%R)
              /\ (in_bounds p grey_row_img = true ->
                  (Rtrigo_def.exp (- 50) <= w <= 1)%R))
         [(1%Q, 0%Q); (7%Q, 0%Q)] ws.
Proof.
  apply (@particle_weight_on_in_range_image
           (fun bb x y => int_box 0 1 (Qfloor x) (Qfloor x + 1))
           [(1%Q, 0%Q); (7%Q, 0%Q)] grey_row_img None None
           (mkClassifier pixel_box grey_img
              (mkParams [0; 1; 2] None [2; 2; 2]
                        [0; 180; 0; 256; 0; 256]%Q)
              (map Fin [0; 0; 0; 0; 1; 0]%R))
           0 1 2 2 2 2 0%Q 180%Q 0%Q 256%Q 0%Q 256%Q
           [0; 0; 0; 0; 1; 0]%R).
  - reflexivity.
  - repeat split; repeat constructor.
  - reflexivity.
  - reflexivity.
  - repeat constructor; lra.
  - simpl; lra.
  - check_pixels.
Defined.

(** ** The scorer on finite histograms *)

Lemma map_Fin_inj (a b : list R) : map Fin a = map Fin b -> a = b.
Proof.
  revert b. induction a as [| x a IH]; intros [| y b] H; simpl in H;
    try discriminate; [reflexivity |].
  injection H as Hx Hab. f_equal; [exact Hx | apply IH; exact Hab].
Qed.

(** A vector of numbers the builder returns has no negative bin. *)
Lemma builder_nonneg (img : image) (objectBB : BB) (channels : list nat)
      (mask : option plane) (num_bins : list nat) (intervals : list Q)
      (c : list R) :
  compute_object_histogram img objectBB channels mask num_bins intervals
  = Ok (map Fin c) ->
  Forall (fun x => 0 <= x)%R c.
Proof.
  intros Hh.
  destruct (builder_cases _ _ _ _ _ _ Hh) as [(n & Hz) | (l & Hl)].
  - rewrite zeros_fin in Hz. apply map_Fin_inj in Hz. subst c.
    apply Forall_forall. intros x Hx. apply repeat_spec in Hx. lra.
  - destruct (Nat.eq_dec (list_sum l) 0) as [E | N].
    + rewrite (divide_counts_zero l E) in Hl.
      destruct c as [| x c]; [constructor |].
      destruct l as [| n l]; simpl in Hl; discriminate Hl.
    + rewrite divide_counts_pos in Hl by lia.
      apply map_Fin_inj in Hl. subst c.
      apply frequencies_nonneg. lia.
Qed.

Lemma traverse_forall2 {A B} (f : A -> result B) (l : list A) (bs : list B) :
  Forall2 (fun a b => f a = Ok b) l bs -> traverse f l = Ok bs.
Proof.
  induction 1 as [| a b l bs Hab _ IH]; simpl; [reflexivity |].
  rewrite Hab, IH. reflexivity.
Qed.

Lemma masked_rows (hsv_img : image) (w : list R -> R)
      (particles : list particle) (cands : list (list R)) :
  length cands = length particles ->
  map (fun x => [x])
      (map2 mul (map Fin (map w cands))
            (map of_bool (map (fun p => in_bounds p hsv_img) particles)))
  = map2 (fun p c => [mul (Fin (w c)) (of_bool (in_bounds p hsv_img))])
         particles cands.
Proof.
  revert particles. induction cands as [| c cands IH]; intros [| p particles] H;
    simpl in H; try discriminate; [reflexivity |].
  cbn [map map2]. rewrite IH by lia. reflexivity.
Qed.

(** The scorer on a reference signature of non-negative finite bins with
    a non-zero sum, when the builder returns a vector of numbers for
    every particle. *)
Lemma particle_weight_finite centered_on particles hsv_img mask self
      (b0 b1 b2 : nat) (ref : list R) (cands : list (list R)) :
  getitem (params_num_bins (_color_hist_params self)) 0 = Ok b0 ->
  getitem (params_num_bins (_color_hist_params self)) 1 = Ok b1 ->
  getitem (params_num_bins (_color_hist_params self)) 2 = Ok b2 ->
  _color_hist self = map Fin ref ->
  length ref = b0 * b1 + b2 ->
  Forall (fun x => 0 <= x)%R ref ->
  Rsum ref <> 0%R ->
  Forall2
    (fun (p : particle) c =>
       compute_object_histogram hsv_img
         (centered_on (_bb self) (fst p) (snd p))
         (params_channels (_color_hist_params self)) mask
         (params_num_bins (_color_hist_params self))
         (params_intervals (_color_hist_params self))
       = Ok (map Fin c))
    particles cands ->
  dist (_color_hist self) (map (map Fin) cands) (b0 * b1 + b2)
  = Ok (map (fun c => Fin (bhattacharyya_distance
                             (renormalized ref) (renormalized_candidate c)))
            cands)
  /\ fst (particle_weight centered_on particles hsv_img mask self)
     = Ok (map2 (fun p c =>
                   [mul (Fin (gaussian_weight
                                (bhattacharyya_distance
                                   (renormalized ref)
                                   (renormalized_candidate c))))
                        (of_bool (in_bounds p hsv_img))])
                particles cands).
Proof.
  intros E0 E1 E2 Href Hlen Hpos Hsum Hrows.
  assert (Hlens : Forall (fun c => length c = b0 * b1 + b2) cands).
  { clear - E0 E1 E2 Hrows.
    induction Hrows as [| p c ps cs Hpc _ IH]; constructor; [| exact IH].
    pose proof (compute_object_histogram_length _ _ _ _ _ _ E0 E1 E2 Hpc)
      as Hl.
    rewrite length_map in Hl. exact Hl. }
  assert (Hnonneg : Forall (Forall (fun x => 0 <= x)%R) cands).
  { clear - Hrows.
    induction Hrows as [| p c ps cs Hpc _ IH]; constructor; [| exact IH].
    exact (builder_nonneg _ _ _ _ _ _ _ Hpc). }
  assert (Hcount : length cands = length particles).
  { clear - Hrows. induction Hrows; simpl; congruence. }
  assert (Hd : dist (_color_hist self) (map (map Fin) cands) (b0 * b1 + b2)
               = Ok (map (fun c => Fin (bhattacharyya_distance
                                          (renormalized ref)
                                          (renormalized_candidate c)))
                         cands)).
  { rewrite Href. apply dist_finite; assumption. }
  split; [exact Hd |].
  rewrite particle_weight_unfold, E0, E1, E2. cbn [rbind].
  rewrite (@traverse_forall2 _ _ _ particles (map (map Fin) cands)).
  - cbn [rbind]. rewrite Hd. cbn [rbind].
    rewrite <- (map_map _ Fin), all_weights_fin, valid_mask_in_bounds.
    f_equal. rewrite (map_map _ gaussian_weight).
    exact (@masked_rows hsv_img _ particles cands Hcount).
  - clear - Hrows.
    induction Hrows as [| p c ps cs Hpc _ IH]; constructor; assumption.
Qed.

(** C3.  With a reference signature of non-negative finite bins and a
    non-zero sum, and a vector of numbers returned by the builder for
    every particle, the scorer computes for every candidate the distance
    [(1/sqrt 2) * sqrt (sum (sqrt ref - sqrt cand)^2)] between the
    renormalised reference and the renormalised candidate, turns it into
    the weight [exp (- d^2 / (2 * 0.1^2))], and returns that weight times
    the validity flag of the particle; a distance of 0 gives the weight
    exactly 1. *)
Theorem particle_weight_distance_and_weight :
  forall (centered_on : BB -> Q -> Q -> BB) (particles : list particle)
         (hsv_img : image) (mask : option plane) (self : classifier)
         (b0 b1 b2 : nat) (ref : list R) (cands : list (list R)),
    getitem (params_num_bins (_color_hist_params self)) 0 = Ok b0 ->
    getitem (params_num_bins (_color_hist_params self)) 1 = Ok b1 ->
    getitem (params_num_bins (_color_hist_params self)) 2 = Ok b2 ->
    _color_hist self = map Fin ref ->
    length ref = b0 * b1 + b2 ->
    Forall (fun x => 0 <= x)%R ref ->
    Rsum ref <> 0%R ->
    Forall2
      (fun (p : particle) c =>
         compute_object_histogram hsv_img
           (centered_on (_bb self) (fst p) (snd p))
           (params_channels (_color_hist_params self)) mask
           (params_num_bins (_color_hist_params self))
           (params_intervals (_color_hist_params self))
         = Ok (map Fin c))
      particles cands ->
    let d := fun c => bhattacharyya_distance (renormalized ref)
                                             (renormalized_candidate c) in
    dist (_color_hist self) (map (map Fin) cands) (b0 * b1 + b2)
    = Ok (map (fun c => Fin (d c)) cands)
    /\ all_weights (map (fun c => Fin (d c)) cands)
       = map (fun c => Fin (gaussian_weight (d c))) cands
    /\ fst (particle_weight centered_on particles hsv_img mask self)
       = Ok (map2 (fun p c => [mul (Fin (gaussian_weight (d c)))
                                   (of_bool (in_bounds p hsv_img))])
                  particles cands)
    /\ all_weights [Fin 0] = [Fin 1].
Proof.
  intros centered_on particles hsv_img mask self b0 b1 b2 ref cands
         E0 E1 E2 Href Hlen Hpos Hsum Hrows d.
  destruct (@particle_weight_finite centered_on particles hsv_img mask self
              b0 b1 b2 ref cands E0 E1 E2 Href Hlen Hpos Hsum Hrows)
    as [Hd Hw].
  split; [exact Hd |]. split; [| split; [exact Hw |]].
  - rewrite <- (map_map d Fin), all_weights_fin, !map_map. reflexivity.
  - change [Fin 0] with (map Fin [0%R]). rewrite all_weights_fin.
    simpl. rewrite gaussian_weight_0. reflexivity.
Qed.

(** The classifier built on the grey pixel, scoring that pixel. *)
Lemma particle_weight_distance_and_weight_witness :
  fst (particle_weight (fun bb _ _ => bb) [(0%Q, 0%Q)] grey_img None
         (mkClassifier pixel_box grey_img
            (mkParams hsv_channels None two_bins hsv_intervals)
            (map Fin (map (fun n => INR n / INR 1)%R [0; 0; 0; 0; 1; 0]))))
  = Ok (map2 (fun p c =>
                [mul (Fin (gaussian_weight
                             (bhattacharyya_distance
                                (renormalized
                                   (map (fun n => INR n / INR 1)%R
                                        [0; 0; 0; 0; 1; 0]))
                                (renormalized_candidate c))))
                     (of_bool (in_bounds p grey_img))])
             [(0%Q, 0%Q)]
             [map (fun n => INR n / INR 1)%R [0; 0; 0; 0; 1; 0]]).
Proof.
  apply (@particle_weight_distance_and_weight
           (fun bb _ _ => bb) [(0%Q, 0%Q)] grey_img None
           (mkClassifier pixel_box grey_img
              (mkParams hsv_channels None two_bins hsv_intervals)
              (map Fin (map (fun n => INR n / INR 1)%R [0; 0; 0; 0; 1; 0])))
           2 2 2
           (map (fun n => INR n / INR 1)%R [0; 0; 0; 0; 1; 0])
           [map (fun n => INR n / INR 1)%R [0; 0; 0; 0; 1; 0]]).
  - reflexivity.
  - reflexivity.
  - reflexivity.
  - reflexivity.
  - reflexivity.
  - repeat constructor; simpl; lra.
  - simpl; lra.
  - constructor; [exact grey_pixel_histogram | constructor].
Defined.

(** ** Scoring a candidate whose histogram sums to zero *)




(** ** The model updater on a signature that is not a number *)

Lemma hue_200_histogram :
  compute_object_histogram hue_200_img pixel_box hsv_channels None two_bins
                           hsv_intervals
  = Ok (repeat NaN 6).
Proof.
  run_builder.
  exact (f_equal Ok (divide_counts_zero [0; 0; 0; 0; 0; 0] eq_refl)).
Qed.

(** C7, as stated, fails.  The classifier built on the pixel of hue 200
    stores a signature of NaN; updating it with factor 1 leaves it NaN,
    not the blended-in histogram.  And updating the classifier built on
    the grey pixel with factor 0 and the histogram of the pixel of
    hue 200 changes its signature, to NaN. *)
Lemma update_with_nan_is_no_blend :
  (exists self,
      __init__ hue_200_img pixel_box hsv_channels None two_bins hsv_intervals
      = Ok self
      /\ _color_hist self = repeat NaN 6
      /\ update_object_histogram (np.zeros 6) (Fin 1) self
         = (Ok tt, self)
      /\ _color_hist self <> np.zeros 6)
  /\ (exists self new_histogram,
         __init__ grey_img pixel_box hsv_channels None two_bins hsv_intervals
         = Ok self
         /\ compute_object_histogram hue_200_img pixel_box hsv_channels None
                                     two_bins hsv_intervals
            = Ok new_histogram
         /\ _color_hist (snd (update_object_histogram new_histogram (Fin 0)
                                                      self))
            = repeat NaN 6
         /\ _color_hist self <> repeat NaN 6).
Proof.
  split.
  - eexists. split; [| split; [| split]].
    + unfold __init__. cbn [params_channels params_mask params_num_bins
                            params_intervals].
      rewrite hue_200_histogram. reflexivity.
    + reflexivity.
    + reflexivity.
    + cbn [_color_hist]. simpl. discriminate.
  - eexists. exists (repeat NaN 6). split; [| split; [| split]].
    + exact init_grey_pixel.
    + exact hue_200_histogram.
    + reflexivity.
    + cbn [_color_hist]. simpl. discriminate.
Qed.
